(** * The syncer of rosetta-sdk-go: reorg state machine, range driver and
      concurrency controller

    A shallow embedding of [syncer/syncer.go]: the per-block state machine
    ([attemptOrphan], [checkRemove], [processBlock]), the range driver
    ([setStart], [nextSyncableRange] and the head of the [Sync] loop), the
    concurrency controller ([adjustWorkers], with the reset and the tick of
    [syncRange] and the exit of a fetcher) and the processor
    ([fetchBlockResult], [processBlocks]).

    Conventions.
    - An [int64] is a [Z] inside [-2^63, 2^63); every addition the source
      performs is followed by [wrap64].
    - A [float64] is Rocq's primitive binary64 [float].
    - A Go function that returns [error] returns [option error] here
      ([None] is Go's [nil]); a run-time panic is the [Panic] outcome.
    - [Handler] and [Helper] are interfaces of the source; they are records
      of operations over an abstract state [W] of the outside world, and every
      call made through them is appended to a log, so that the number and the
      order of the callbacks can be stated. *)

From Stdlib Require Import ZArith List String Ascii Bool Lia.
From Stdlib Require Import DecimalString.
From Stdlib Require Import PrimFloat FloatOps SpecFloat.
From Stdlib Require FMapAVL FMapFacts OrderedTypeEx.
Import ListNotations.

Open Scope string_scope.
Open Scope list_scope.
Open Scope Z_scope.

(** ** Machine integers *)

Definition int64_min : Z := - 2 ^ 63.
Definition int64_max : Z := 2 ^ 63 - 1.

Definition in_int64 (z : Z) : bool := (int64_min <=? z) && (z <=? int64_max).

(** Two's complement wrap-around of a 64-bit signed result. *)
Definition wrap64 (z : Z) : Z := (z + 2 ^ 63) mod 2 ^ 64 - 2 ^ 63.

(** [%d] of [fmt] on an integer. *)
Definition fmt_d (z : Z) : string := NilZero.string_of_int (Z.to_int z).

(** ** Slices *)

(** [l[len(l)-1]], when there is one. *)
Definition slice_last {A : Type} (l : list A) : option A :=
  match rev l with
  | [] => None
  | x :: _ => Some x
  end.

(** ** Data model *)

(** Modelled from the spec: the declarations of [types.BlockIdentifier],
    [types.Block] and [types.NetworkStatusResponse] are not among the sources;
    section 3 of the specification gives a block identifier as an index and a
    hash, and a block as an identifier, a parent identifier and a payload the
    syncer never reads.  The two identifiers of a block and of a status
    response are pointers in the source; they are taken non-nil, as the
    asserter leaves them in what reaches the syncer. *)
Record BlockIdentifier : Type := mkBlockIdentifier {
  Index : Z;
  BlockHash : string
}.

Record Block : Type := mkBlock {
  Block_BlockIdentifier : BlockIdentifier;
  Block_ParentBlockIdentifier : BlockIdentifier;
  Block_Timestamp : Z
}.

Record NetworkStatusResponse : Type := mkNetworkStatusResponse {
  CurrentBlockIdentifier : BlockIdentifier;
  GenesisBlockIdentifier : BlockIdentifier
}.

(** [blockResult] of the source; [block] is a pointer and may be nil. *)
Record blockResult : Type := mkBlockResult {
  index : Z;
  block : option Block;
  orphanHead : bool
}.

(** ** Errors *)

Inductive error : Type :=
| ErrCannotRemoveGenesisBlock
| ErrOutOfOrder
| ErrBlockResultNil
| ErrOrphanHead
| ErrGetCurrentHeadBlockFailed
| ErrGetNetworkStatusFailed
| ErrNextSyncableRangeFailed
| ErrSetStartIndexFailed
| External (msg : string)
| Errorf (wrapped : error) (text : string).

Definition error_eq_dec (a b : error) : {a = b} + {a <> b}.
Proof. decide equality; apply string_dec. Defined.

(** [errors.Is]: the error itself or one it wraps. *)
Fixpoint errors_Is (e target : error) : bool :=
  if error_eq_dec e target then true
  else match e with
       | Errorf w _ => errors_Is w target
       | _ => false
       end.

(** ** Constants *)

Definition PastBlockSize : Z := 20.
Definition DefaultConcurrency : Z := 4.
Definition DefaultCacheSize : Z := Z.shiftl 2000 20.
Definition DefaultMaxConcurrency : Z := 256.
Definition MinConcurrency : Z := 1.
Definition defaultTrailingWindow : Z := 1000.
Definition defaultAdjustmentWindow : Z := 10.
Definition DefaultSizeMultiplier : float := 10%float.

(** ** The syncer *)

Record Syncer : Type := mkSyncer {
  genesisBlock : option BlockIdentifier;
  nextIndex : Z;
  pastBlocks : list BlockIdentifier;
  cacheSize : Z;
  sizeMultiplier : float;
  maxConcurrency : Z;
  concurrency : Z;
  goalConcurrency : Z;
  recentBlockSizes : list Z;
  lastAdjustment : Z;
  doneLoading : bool
}.

Definition set_genesisBlock (g : option BlockIdentifier) (s : Syncer) : Syncer :=
  mkSyncer g (nextIndex s) (pastBlocks s) (cacheSize s) (sizeMultiplier s)
    (maxConcurrency s) (concurrency s) (goalConcurrency s)
    (recentBlockSizes s) (lastAdjustment s) (doneLoading s).

Definition set_nextIndex (n : Z) (s : Syncer) : Syncer :=
  mkSyncer (genesisBlock s) n (pastBlocks s) (cacheSize s) (sizeMultiplier s)
    (maxConcurrency s) (concurrency s) (goalConcurrency s)
    (recentBlockSizes s) (lastAdjustment s) (doneLoading s).

Definition set_pastBlocks (p : list BlockIdentifier) (s : Syncer) : Syncer :=
  mkSyncer (genesisBlock s) (nextIndex s) p (cacheSize s) (sizeMultiplier s)
    (maxConcurrency s) (concurrency s) (goalConcurrency s)
    (recentBlockSizes s) (lastAdjustment s) (doneLoading s).

Definition set_concurrency (c : Z) (s : Syncer) : Syncer :=
  mkSyncer (genesisBlock s) (nextIndex s) (pastBlocks s) (cacheSize s)
    (sizeMultiplier s) (maxConcurrency s) c (goalConcurrency s)
    (recentBlockSizes s) (lastAdjustment s) (doneLoading s).

Definition set_goalConcurrency (g : Z) (s : Syncer) : Syncer :=
  mkSyncer (genesisBlock s) (nextIndex s) (pastBlocks s) (cacheSize s)
    (sizeMultiplier s) (maxConcurrency s) (concurrency s) g
    (recentBlockSizes s) (lastAdjustment s) (doneLoading s).

Definition set_recentBlockSizes (r : list Z) (s : Syncer) : Syncer :=
  mkSyncer (genesisBlock s) (nextIndex s) (pastBlocks s) (cacheSize s)
    (sizeMultiplier s) (maxConcurrency s) (concurrency s) (goalConcurrency s)
    r (lastAdjustment s) (doneLoading s).

Definition set_lastAdjustment (a : Z) (s : Syncer) : Syncer :=
  mkSyncer (genesisBlock s) (nextIndex s) (pastBlocks s) (cacheSize s)
    (sizeMultiplier s) (maxConcurrency s) (concurrency s) (goalConcurrency s)
    (recentBlockSizes s) a (doneLoading s).

(** [New]: the defaults, then the options in order. *)
Definition New (options : list (Syncer -> Syncer)) : Syncer :=
  fold_left (fun s opt => opt s) options
    (mkSyncer None 0 [] DefaultCacheSize DefaultSizeMultiplier
       DefaultMaxConcurrency DefaultConcurrency 0 [] 0 false).

(** ** The outside world *)

Inductive Call : Type :=
| CallBlockAdded (b : option Block)
| CallBlockRemoved (b : option BlockIdentifier)
| CallNetworkStatus.

Record Handler (W : Type) : Type := mkHandler {
  BlockAdded : option Block -> W -> option error * W;
  BlockRemoved : option BlockIdentifier -> W -> option error * W
}.

Record Helper (W : Type) : Type := mkHelper {
  NetworkStatus : W -> (NetworkStatusResponse + error) * W
}.

Arguments BlockAdded {W} _ _ _.
Arguments BlockRemoved {W} _ _ _.
Arguments NetworkStatus {W} _ _.

(** The syncer, the world behind its handler and helper, and the log of the
    calls made so far (oldest first). *)
Record Machine (W : Type) : Type := mkMachine {
  syncer : Syncer;
  world : W;
  calls : list Call
}.

Arguments mkMachine {W} _ _ _.
Arguments syncer {W} _.
Arguments world {W} _.
Arguments calls {W} _.

(** Outcome of running a Go function: it returns, or the goroutine panics. *)
Inductive outcome (A : Type) : Type :=
| Returns (a : A)
| Panic (reason : string).

Arguments Returns {A} _.
Arguments Panic {A} _.

Definition M (W A : Type) : Type := Machine W -> outcome A * Machine W.

Definition ret {W A : Type} (a : A) : M W A := fun m => (Returns a, m).

Definition bind {W A B : Type} (c : M W A) (k : A -> M W B) : M W B :=
  fun m =>
    match c m with
    | (Returns a, m') => k a m'
    | (Panic r, m') => (Panic r, m')
    end.

Definition panic {W A : Type} (reason : string) : M W A :=
  fun m => (Panic reason, m).

Definition get {W : Type} : M W Syncer := fun m => (Returns (syncer m), m).

Definition modify {W : Type} (f : Syncer -> Syncer) : M W unit :=
  fun m => (Returns tt, mkMachine (f (syncer m)) (world m) (calls m)).

(** A call through an interface: the world answers and the call is logged. *)
Definition invoke {W A : Type} (c : Call) (op : W -> A * W) : M W A :=
  fun m =>
    let (a, w') := op (world m) in
    (Returns a, mkMachine (syncer m) w' (calls m ++ [c])).

Declare Scope go_scope.
Delimit Scope go_scope with go.
Notation "x <- c ;; k" := (bind c (fun x => k))
  (at level 61, c at next level, right associativity) : go_scope.
Notation "c ;;; k" := (bind c (fun _ => k))
  (at level 61, right associativity) : go_scope.

(** ** The reorg state machine *)

Section StateMachine.

(** The world behind the interfaces, and the two interfaces. *)
Variable W : Type.
Variable handler : Handler W.
Variable helper : Helper W.

(** [types.Hash], of package [types]: the syncer compares identifiers by
    the digest of their serialisation; the argument is a pointer and may be
    nil. *)
Variable Hash : option BlockIdentifier -> string.

(** The texts of the package's sentinel errors ([errors.New]). *)
Variable sentinelText : error -> string.

Local Open Scope go_scope.

(** [err.Error()]. *)
Fixpoint Error (e : error) : string :=
  match e with
  | External msg => msg
  | Errorf wrapped text => (Error wrapped ++ text)%string
  | _ => sentinelText e
  end.

Definition attemptOrphan (s : Syncer) (lastBlock : BlockIdentifier)
  : bool * option BlockIdentifier * option error :=
  if String.eqb (Hash (genesisBlock s)) (Hash (Some lastBlock))
  then (false, None, Some ErrCannotRemoveGenesisBlock)
  else (true, Some lastBlock, None).

Definition checkRemove (br : blockResult)
  : M W (bool * option BlockIdentifier * option error) :=
  s <- get ;;
  if (Z.of_nat (List.length (pastBlocks s)) =? 0) then ret (false, None, None)
  else
    match slice_last (pastBlocks s) with
    | None => panic "index out of range"
    | Some lastBlock =>
        if orphanHead br then ret (attemptOrphan s lastBlock)
        else
          (* Ensure processing correct index *)
          match block br with
          | None => panic "nil pointer dereference"
          | Some block =>
              if negb (Index (Block_BlockIdentifier block) =? nextIndex s)
              then ret (false, None,
                        Some (Errorf ErrOutOfOrder
                                (": got block "
                                 ++ fmt_d (Index (Block_BlockIdentifier block))
                                 ++ " instead of "
                                 ++ fmt_d (nextIndex s))%string))
              else
                (* Check if block parent is head *)
                if negb (String.eqb
                           (Hash (Some (Block_ParentBlockIdentifier block)))
                           (Hash (Some lastBlock)))
                then ret (attemptOrphan s lastBlock)
                else ret (false, Some lastBlock, None)
          end
    end.

Definition is_nil {A : Type} (p : option A) : bool :=
  match p with None => true | Some _ => false end.

Definition processBlock (br : option blockResult) : M W (option error) :=
  match br with
  | None => ret (Some ErrBlockResultNil)
  | Some br =>
      (* If the block is omitted, increase index and return. *)
      if is_nil (block br) && negb (orphanHead br)
      then modify (fun s => set_nextIndex (wrap64 (nextIndex s + 1)) s) ;;;
           ret None
      else
        r <- checkRemove br ;;
        let '(shouldRemove, lastBlock, err) := r in
        match err with
        | Some e => ret (Some e)
        | None =>
            if (shouldRemove : bool)
            then
              err <- invoke (CallBlockRemoved lastBlock)
                       (BlockRemoved handler lastBlock) ;;
              match err with
              | Some e => ret (Some e)
              | None =>
                  s <- get ;;
                  match pastBlocks s with
                  | [] => panic "slice bounds out of range"
                  | _ :: _ =>
                      modify (set_pastBlocks (removelast (pastBlocks s))) ;;;
                      match lastBlock with
                      | None => panic "nil pointer dereference"
                      | Some lb => modify (set_nextIndex (Index lb)) ;;;
                                   ret None
                      end
                  end
              end
            else
              let block := block br in
              err <- invoke (CallBlockAdded block)
                       (BlockAdded handler block) ;;
              match err with
              | Some e => ret (Some e)
              | None =>
                  match block with
                  | None => panic "nil pointer dereference"
                  | Some b =>
                      modify (fun s =>
                                set_pastBlocks
                                  (pastBlocks s ++ [Block_BlockIdentifier b])
                                  s) ;;;
                      s <- get ;;
                      (if Z.of_nat (List.length (pastBlocks s)) >? PastBlockSize
                       then modify (set_pastBlocks (tl (pastBlocks s)))
                       else ret tt) ;;;
                      modify (set_nextIndex
                                (wrap64 (Index (Block_BlockIdentifier b) + 1))) ;;;
                      ret None
                  end
              end
        end
  end.

(** The test of the first branch of [processBlock]: the block is omitted. *)
Definition omittedResult (br : blockResult) : bool :=
  is_nil (block br) && negb (orphanHead br).

(** The condition under which [checkRemove] asks for the removal of the
    tail of [pastBlocks]: an orphan-head result, or a block for the expected
    index whose parent is not the tail. *)
Definition unwindTriggered (s : Syncer) (br : blockResult) : bool :=
  orphanHead br
  || match block br, slice_last (pastBlocks s) with
     | Some b, Some t =>
         (Index (Block_BlockIdentifier b) =? nextIndex s)
         && negb (String.eqb (Hash (Some (Block_ParentBlockIdentifier b)))
                    (Hash (Some t)))
     | _, _ => false
     end.

(** The window after an append: the head goes when the size exceeds
    [PastBlockSize]. *)
Definition trimmed (l : list BlockIdentifier) : list BlockIdentifier :=
  if Z.of_nat (List.length l) >? PastBlockSize then tl l else l.

(** ** The range driver *)

Definition setStart (index : Z) : M W (option error) :=
  r <- invoke CallNetworkStatus (NetworkStatus helper) ;;
  match r with
  | inr err => ret (Some err)
  | inl networkStatus =>
      modify (set_genesisBlock
                (Some (GenesisBlockIdentifier networkStatus))) ;;;
      if negb (index =? -1)
      then modify (set_nextIndex index) ;;; ret None
      else modify (set_nextIndex
                     (Index (GenesisBlockIdentifier networkStatus))) ;;;
           ret None
  end.

Definition nextSyncableRange (endIndex : Z) : M W (Z * bool * option error) :=
  s <- get ;;
  if nextIndex s =? -1
  then ret (-1, false, Some ErrGetCurrentHeadBlockFailed)
  else
    (* Always fetch network status to ensure endIndex is not past tip *)
    r <- invoke CallNetworkStatus (NetworkStatus helper) ;;
    match r with
    | inr err =>
        ret (-1, false,
             Some (Errorf ErrGetNetworkStatusFailed (": " ++ Error err)%string))
    | inl networkStatus =>
        let endIndex :=
          if (endIndex =? -1)
             || (endIndex >? Index (CurrentBlockIdentifier networkStatus))
          then Index (CurrentBlockIdentifier networkStatus)
          else endIndex in
        if nextIndex s >? endIndex
        then ret (-1, true, None)
        else ret (endIndex, false, None)
    end.

(** What one turn of the loop of [Sync] decides before it hands a range to
    [syncRange]. *)
Inductive turn : Type :=
| Finished
| SleepAndRepeat
| SyncRange (rangeEnd : Z)
| Failed (e : error).

Definition Sync_turn (endIndex : Z) : M W turn :=
  r <- nextSyncableRange endIndex ;;
  let '(rangeEnd, halt, err) := r in
  match err with
  | Some e =>
      ret (Failed (Errorf ErrNextSyncableRangeFailed (": " ++ Error e)%string))
  | None =>
      if (halt : bool)
      then
        s <- get ;;
        if (nextIndex s >? endIndex) && negb (endIndex =? -1)
        then ret Finished
        else ret SleepAndRepeat
      else ret (SyncRange rangeEnd)
  end.

(** The operations on the syncer that move [nextIndex]. *)
Inductive operation : Type :=
| OpSetStart (index : Z)
| OpProcessBlock (br : option blockResult).

Definition perform (op : operation) (m : Machine W) : Machine W :=
  match op with
  | OpSetStart index => snd (setStart index m)
  | OpProcessBlock br => snd (processBlock br m)
  end.

(** The operation triggers an unwind in syncer [s]. *)
Definition unwinds (s : Syncer) (op : operation) : bool :=
  match op with
  | OpProcessBlock (Some br) => unwindTriggered s br
  | _ => false
  end.

(** The operation is a [processBlock] on a result that carries a block, and it
    returns no error from machine [m]. *)
Definition addsBlock (op : operation) (m : Machine W) : Prop :=
  match op with
  | OpProcessBlock (Some br) =>
      block br <> None /\ fst (processBlock (Some br) m) = Returns None
  | _ => False
  end.

End StateMachine.

Arguments Error sentinelText e : rename.
Arguments attemptOrphan Hash s lastBlock : rename.
Arguments checkRemove {W} Hash br _ : rename.
Arguments processBlock {W} handler Hash br _ : rename.
Arguments unwindTriggered Hash s br : rename.
Arguments setStart {W} helper index _ : rename.
Arguments nextSyncableRange {W} helper sentinelText endIndex _ : rename.
Arguments Sync_turn {W} helper sentinelText endIndex _ : rename.
Arguments operation : clear implicits.
Arguments perform {W} handler helper Hash op m : rename.
Arguments unwinds Hash s op : rename.
Arguments addsBlock {W} handler Hash op m : rename.

(** The range end the specification describes: the tip when the caller
    follows the tip or asks for more than the tip, else what the caller
    asked for. *)
Definition effectiveEnd (endIndex tip : Z) : Z :=
  if (endIndex =? -1) || (endIndex >? tip) then tip else endIndex.

(** Invariant P2 of the specification. *)
Definition P2 (s : Syncer) : Prop :=
  forall g, genesisBlock s = Some g -> nextIndex s > Index g ->
            pastBlocks s <> [].

(** ** The concurrency controller *)

(** [float64(z)] of an integer: the nearest binary64, ties to even. *)
Definition float64_of_int (z : Z) : float :=
  SF2Prim (binary_normalize prec emax z 0 false).

(** The integer part of a finite binary64, the fraction discarded. *)
Definition truncate (f : float) : option Z :=
  match Prim2SF f with
  | S754_zero _ => Some 0
  | S754_finite sign m e =>
      let magnitude :=
        if 0 <=? e then Z.shiftl (Zpos m) e else Z.shiftr (Zpos m) (- e) in
      Some (if sign then - magnitude else magnitude)
  | S754_infinity _ | S754_nan => None
  end.

(** The largest integer not above a finite binary64. *)
Definition floor (f : float) : option Z :=
  match Prim2SF f with
  | S754_zero _ => Some 0
  | S754_finite sign m e =>
      if 0 <=? e then
        Some (if sign then - Z.shiftl (Zpos m) e else Z.shiftl (Zpos m) e)
      else
        Some (if sign then Z.neg m / 2 ^ (- e) else Zpos m / 2 ^ (- e))
  | S754_infinity _ | S754_nan => None
  end.

Section Controller.

(** Go leaves the result of [int64(f)] to the implementation when [f] is
    not a number or its integer part is outside [int64]. *)
Variable convOutOfRange : float -> Z.

(** [int64(f)]. *)
Definition int64_of_float (f : float) : Z :=
  match truncate f with
  | Some z => if in_int64 z then z else wrap64 (convOutOfRange f)
  | None => wrap64 (convOutOfRange f)
  end.

(** The loop that finds the max block size. *)
Definition maxBlockSize (sizes : list Z) : Z :=
  fold_left (fun maxSize b => if b >? maxSize then b else maxSize) sizes 0.

(** [max] and [estimatedMaxCache] of [adjustWorkers]. *)
Definition paddedMax (s : Syncer) : float :=
  (float64_of_int (maxBlockSize (recentBlockSizes s)) * sizeMultiplier s)%float.

Definition estimatedMaxCache (s : Syncer) : float :=
  (paddedMax s * float64_of_int (concurrency s))%float.

(** The guard of the first [if] of [adjustWorkers].  The sum is rounded on
    its own, as a compiler that does not fuse the multiplication of
    [estimatedMaxCache] into it computes it. *)
Definition slowRiseGuard (s : Syncer) : bool :=
  (estimatedMaxCache s + paddedMax s <? float64_of_int (cacheSize s))%float
  && (concurrency s <? maxConcurrency s)
  && (lastAdjustment s >? defaultAdjustmentWindow).

(** The guard of the second [if]; [estimatedMaxCache] was computed before
    the first [if] ran. *)
Definition fastFallGuard (s : Syncer) : bool :=
  (float64_of_int (cacheSize s) <? estimatedMaxCache s)%float.

(** If < cacheSize, increase concurrency by 1 up to MaxConcurrency. *)
Definition slowRise (s : Syncer) : Syncer :=
  set_lastAdjustment 0
    (set_concurrency (wrap64 (concurrency s + 1))
       (set_goalConcurrency (wrap64 (goalConcurrency s + 1)) s)).

Definition newGoalConcurrency (max : float) (s : Syncer) : Z :=
  let newGoalConcurrency := int64_of_float (float64_of_int (cacheSize s) / max) in
  if newGoalConcurrency <? MinConcurrency then MinConcurrency
  else newGoalConcurrency.

(** If >= cacheSize, decrease concurrency however many necessary to fit max
    cache size; [max] is the padded size computed on entry. *)
Definition fastFall (max : float) (s : Syncer) : Syncer :=
  if negb (goalConcurrency s =? newGoalConcurrency max s)
  then set_lastAdjustment 0 (set_goalConcurrency (newGoalConcurrency max s) s)
  else s.

(** Remove first element in array if we are over our trailing window. *)
Definition trimWindow (s : Syncer) : Syncer :=
  if Z.of_nat (List.length (recentBlockSizes s)) >? defaultTrailingWindow
  then set_recentBlockSizes (tl (recentBlockSizes s)) s
  else s.

(** [adjustWorkers]; the critical section runs under [concurrencyLock], so
    its writes are one step for the fetchers, and the log lines it prints are
    left out. *)
Definition adjustWorkers (s : Syncer) : bool * Syncer :=
  let max := paddedMax s in
  let shouldCreate := slowRiseGuard s in
  let s1 := if shouldCreate then slowRise s else s in
  let s2 := if fastFallGuard s then fastFall max s1 else s1 in
  (shouldCreate, trimWindow s2).

End Controller.

(** ** Mocks and the blocks of the package's tests *)

Module Mock.

(** A handler that accepts every callback. *)
Definition accepting : Handler unit :=
  mkHandler unit (fun _ w => (None, w)) (fun _ w => (None, w)).

(** A handler whose callbacks all fail. *)
Definition failing : Handler unit :=
  mkHandler unit
    (fun _ w => (Some (External "handler failed"), w))
    (fun _ w => (Some (External "handler failed"), w)).

(** A stand-in for [types.Hash] that has no collisions: the serialised
    identifier itself. *)
Definition hash (p : option BlockIdentifier) : string :=
  match p with
  | None => "null"
  | Some b => ("{index:" ++ fmt_d (Index b) ++ ",hash:" ++ BlockHash b ++ "}")%string
  end.

Definition texts (e : error) : string :=
  match e with
  | ErrCannotRemoveGenesisBlock => "cannot remove genesis block"
  | ErrOutOfOrder => "out of order"
  | ErrBlockResultNil => "block result is nil"
  | ErrOrphanHead => "orphan head"
  | ErrGetCurrentHeadBlockFailed => "unable to get current head"
  | ErrGetNetworkStatusFailed => "unable to get network status"
  | ErrNextSyncableRangeFailed => "unable to get next syncable range"
  | ErrSetStartIndexFailed => "unable to set start index"
  | _ => ""
  end.

(** A helper whose node has genesis "block 0" and the given tip, as in the
    tests of [Sync]. *)
Definition status (tip : Z) : NetworkStatusResponse :=
  mkNetworkStatusResponse
    (mkBlockIdentifier tip ("block " ++ fmt_d tip))
    (mkBlockIdentifier 0 "block 0").

Definition helperAt (tip : Z) : Helper unit :=
  mkHelper unit (fun w => (inl (status tip), w)).

Definition id0 := mkBlockIdentifier 0 "0".
Definition id1 := mkBlockIdentifier 1 "1".
Definition id1a := mkBlockIdentifier 1 "1a".
Definition id2 := mkBlockIdentifier 2 "2".
Definition id3 := mkBlockIdentifier 3 "3".

(** [blockSequence] and [orphanGenesis] of the tests. *)
Definition block0 := mkBlock id0 id0 0.
Definition block1 := mkBlock id1 id0 0.
Definition block2 := mkBlock id2 id1a 0.
Definition block1a := mkBlock id1a id0 0.
Definition block3 := mkBlock id3 id2 0.
Definition block5 := mkBlock (mkBlockIdentifier 5 "5") (mkBlockIdentifier 4 "4") 0.
Definition orphanGenesis := mkBlock id1 (mkBlockIdentifier 0 "0a") 0.

Definition fresh (b : Block) : option blockResult :=
  Some (mkBlockResult (Index (Block_BlockIdentifier b)) (Some b) false).

Definition omitted (i : Z) : option blockResult :=
  Some (mkBlockResult i None false).

Definition orphan (i : Z) : option blockResult :=
  Some (mkBlockResult i None true).

(** A syncer with a genesis identifier, a next index and a window. *)
Definition syncerAt (g : option BlockIdentifier) (n : Z)
    (past : list BlockIdentifier) : Syncer :=
  set_pastBlocks past (set_nextIndex n (set_genesisBlock g (New []))).

Definition start (s : Syncer) : Machine unit := mkMachine s tt [].

(** Run a sequence of block results, stopping at the first error or panic. *)
Fixpoint run (h : Handler unit) (brs : list (option blockResult))
    (m : Machine unit) : outcome (option error) * Machine unit :=
  match brs with
  | [] => (Returns None, m)
  | br :: rest =>
      match processBlock h hash br m with
      | (Returns None, m') => run h rest m'
      | stop => stop
      end
  end.

(** [createBlocks] of the tests: identifier [i] and the block at [i], whose
    parent is the block at [i - 1] (the first block is its own parent). *)
Definition ident (i : Z) : BlockIdentifier :=
  mkBlockIdentifier i ("block " ++ fmt_d i).

Definition blockAt (i : Z) : Block :=
  mkBlock (ident i) (ident (Z.max (i - 1) 0)) 0.

Fixpoint chain (n : nat) : list BlockIdentifier :=
  match n with
  | O => []
  | S k => chain k ++ [ident (Z.of_nat k)]
  end.

(** The syncer of the tests after blocks 0 and 1. *)
Definition afterTwo : Machine unit := start (syncerAt (Some id0) 2 [id0; id1]).

(** A syncer whose window is full: blocks 0 to 19 were added. *)
Definition fullWindow : Machine unit :=
  start (syncerAt (Some (ident 0)) 20 (chain 20)).

(** A syncer under memory pressure: 256 fetchers, a largest recent block of
    a million bytes, the default budget and multiplier. *)
Definition pressed : Syncer :=
  set_lastAdjustment 11
    (set_goalConcurrency 256
       (set_concurrency 256
          (set_recentBlockSizes [1000000; 5; 70] (New [])))).

(** [int64] of a float out of range, as amd64 gives it. *)
Definition indefinite (f : float) : Z := int64_min.

End Mock.

(** ** The processor *)

Module ZMap := FMapAVL.Make OrderedTypeEx.Z_as_OT.
Module ZMapFacts := FMapFacts.WFacts_fun OrderedTypeEx.Z_as_OT ZMap.

(** The [Block] method of [Helper]: the block at an index (nil when the node
    omits it) and an error. *)
Record BlockHelper (W : Type) : Type := mkBlockHelper {
  Helper_Block : Z -> W -> (option Block * option error) * W
}.

Arguments Helper_Block {W} _ _ _.

(** [cache] of [syncRange]: fetched results by index, waiting for their
    turn. *)
Definition Cache : Type := ZMap.t (option blockResult).

(** What [processBlocks] works on: the syncer with the world behind its
    interfaces, the cache it shares with [syncRange], and the indices asked
    of [Helper.Block] so far (oldest first). *)
Record Pipeline (W : Type) : Type := mkPipeline {
  machine : Machine W;
  cache : Cache;
  fetched : list Z
}.

Arguments mkPipeline {W} _ _ _.
Arguments machine {W} _.
Arguments cache {W} _.
Arguments fetched {W} _.

Definition with_machine {W : Type} (m : Machine W) (p : Pipeline W) : Pipeline W :=
  mkPipeline m (cache p) (fetched p).

(** The entries of a cache are among those of another. *)
Definition within (c c0 : Cache) : Prop :=
  forall k v, ZMap.find k c = Some v -> ZMap.find k c0 = Some v.

(** What the first half of a turn of the loop of [processBlocks] yields. *)
Inductive obtained (W : Type) : Type :=
| Wait
| Got (br : option blockResult) (p : Pipeline W)
| FetchFailed (e : error) (p : Pipeline W).

Arguments Wait {W}.
Arguments Got {W} _ _.
Arguments FetchFailed {W} _ _.

Section Processor.

Variable W : Type.
Variable handler : Handler W.
Variable blocks : BlockHelper W.
Variable Hash : option BlockIdentifier -> string.
Variable sentinelText : error -> string.

(** Two more sentinel errors of the package, declared with the others. *)
Variable ErrFetchBlockReorgFailed : error.
Variable ErrBlockProcessFailed : error.

Definition fetchBlockResult (index : Z) (p : Pipeline W)
  : (option blockResult * option error) * Pipeline W :=
  let '((block, err), w') := Helper_Block blocks index (world (machine p)) in
  let p' :=
    mkPipeline (mkMachine (syncer (machine p)) w' (calls (machine p)))
      (cache p) (fetched p ++ [index]) in
  match err with
  | Some e =>
      if errors_Is e ErrOrphanHead
      then ((Some (mkBlockResult index None true), None), p')
      else ((None, Some e), p')
  | None => ((Some (mkBlockResult index block false), None), p')
  end.

(** The result for [nextIndex]: from the cache (and out of it), or, in a
    reorg, from the helper; none when the loop breaks to wait. *)
Definition obtain (reorgStart : Z) (p : Pipeline W) : obtained W :=
  let next := nextIndex (syncer (machine p)) in
  match ZMap.find next (cache p) with
  | None =>
      (* Wait for more blocks if we aren't in a reorg. *)
      if reorgStart <? next then Wait
      else
        match fetchBlockResult next p with
        | ((_, Some err), p') => FetchFailed err p'
        | ((br, None), p') => Got br p'
        end
  | Some br =>
      Got br (mkPipeline (machine p) (ZMap.remove next (cache p)) (fetched p))
  end.

(** The loop of [processBlocks]; [None] when the turns allowed run out. *)
Fixpoint processBlocks_loop (turns : nat) (endIndex reorgStart : Z)
    (p : Pipeline W) : option (outcome (option error) * Pipeline W) :=
  match turns with
  | O => None
  | S turns =>
      if nextIndex (syncer (machine p)) <=? endIndex then
        match obtain reorgStart p with
        | Wait => Some (Returns None, p)
        | FetchFailed e p1 =>
            Some (Returns
                    (Some (Errorf ErrFetchBlockReorgFailed
                             (": " ++ Error sentinelText e)%string)),
                  p1)
        | Got br p1 =>
            let lastProcessed := nextIndex (syncer (machine p1)) in
            match processBlock handler Hash br (machine p1) with
            | (Returns (Some e), m') =>
                Some (Returns
                        (Some (Errorf ErrBlockProcessFailed
                                 (": " ++ Error sentinelText e)%string)),
                      with_machine m' p1)
            | (Panic reason, m') => Some (Panic reason, with_machine m' p1)
            | (Returns None, m') =>
                processBlocks_loop turns endIndex
                  (if (nextIndex (syncer m') <? lastProcessed)
                      && (reorgStart =? -1)
                   then lastProcessed else reorgStart)
                  (with_machine m' p1)
            end
        end
      else Some (Returns None, p)
  end.

Definition processBlocks (turns : nat) (endIndex : Z) (p : Pipeline W)
  : option (outcome (option error) * Pipeline W) :=
  processBlocks_loop turns endIndex (-1) p.

(** A run of blocks the loop can deliver one after the other from index
    [n]: each is in the cache under its index as a fresh result, has that
    index, and has a parent that hash-equals the block before it ([tail],
    for the first one, when there is a tail). *)
Fixpoint deliverable (c : Cache) (tail : option BlockIdentifier) (n : Z)
    (bs : list Block) : Prop :=
  match bs with
  | [] => True
  | b :: rest =>
      (exists i, ZMap.find n c = Some (Some (mkBlockResult i (Some b) false)))
      /\ Index (Block_BlockIdentifier b) = n
      /\ match tail with
         | None => True
         | Some t =>
             String.eqb (Hash (Some (Block_ParentBlockIdentifier b)))
               (Hash (Some t)) = true
         end
      /\ deliverable c (Some (Block_BlockIdentifier b)) (n + 1) rest
  end.

End Processor.

Arguments fetchBlockResult {W} blocks index p.
Arguments obtain {W} blocks reorgStart p.
Arguments processBlocks_loop {W} handler blocks Hash sentinelText
  ErrFetchBlockReorgFailed ErrBlockProcessFailed turns endIndex reorgStart p.
Arguments processBlocks {W} handler blocks Hash sentinelText
  ErrFetchBlockReorgFailed ErrBlockProcessFailed turns endIndex p.

(** ** The order of the calls *)

(** What the processor does to the outside, in the order it does it: a call
    of the handler or a request to the node. *)
Inductive Event : Type :=
| Handled (c : Call)
| Asked (index : Z).

(** A world together with the events so far (oldest first). *)
Definition Traced (W : Type) : Type := (W * list Event)%type.

(** A handler and a node that answer as the given ones do and write each
    call down in the world they share. *)
Definition traceHandler {W : Type} (h : Handler W) : Handler (Traced W) :=
  mkHandler (Traced W)
    (fun b w =>
       let (err, w') := BlockAdded h b (fst w) in
       (err, (w', snd w ++ [Handled (CallBlockAdded b)])))
    (fun b w =>
       let (err, w') := BlockRemoved h b (fst w) in
       (err, (w', snd w ++ [Handled (CallBlockRemoved b)]))).

Definition traceBlocks {W : Type} (n : BlockHelper W) : BlockHelper (Traced W) :=
  mkBlockHelper (Traced W)
    (fun i w =>
       let (answer, w') := Helper_Block n i (fst w) in
       (answer, (w', snd w ++ [Asked i]))).

Definition trace {W : Type} (p : Pipeline (Traced W)) : list Event :=
  snd (world (machine p)).

(** The machine and the pipeline without the events. *)
Definition untracedMachine {W : Type} (m : Machine (Traced W)) : Machine W :=
  mkMachine (syncer m) (fst (world m)) (calls m).

Definition untraced {W : Type} (p : Pipeline (Traced W)) : Pipeline W :=
  mkPipeline (untracedMachine (machine p)) (cache p) (fetched p).

(** ** The controller through a range *)

Definition set_doneLoading (d : bool) (s : Syncer) : Syncer :=
  mkSyncer (genesisBlock s) (nextIndex s) (pastBlocks s) (cacheSize s)
    (sizeMultiplier s) (maxConcurrency s) (concurrency s) (goalConcurrency s)
    (recentBlockSizes s) (lastAdjustment s) d.

(** The head of [syncRange], before it starts a goroutine: the starting
    concurrency and the reset of the sync variables. *)
Definition syncRange_reset (endIndex : Z) (s : Syncer) : Syncer :=
  (* Ensure default concurrency is less than max concurrency. *)
  let startingConcurrency :=
    if maxConcurrency s <? DefaultConcurrency then maxConcurrency s
    else DefaultConcurrency in
  (* Don't create more goroutines than there are blocks to sync. *)
  let blocksToSync := wrap64 (wrap64 (endIndex - nextIndex s) + 1) in
  let startingConcurrency :=
    if blocksToSync <? startingConcurrency then blocksToSync
    else startingConcurrency in
  set_goalConcurrency startingConcurrency
    (set_concurrency startingConcurrency
       (set_doneLoading false
          (set_lastAdjustment 0 (set_recentBlockSizes [] s)))).

(** The critical section that ends a turn of [fetchChannelBlocks]: the
    fetcher exits if concurrency is greater than goal concurrency. *)
Definition fetcher_turn (s : Syncer) : bool * Syncer :=
  if concurrency s >? goalConcurrency s
  then (true, set_concurrency (wrap64 (concurrency s - 1)) s)
  else (false, s).

(** What the controller keeps through a range: the two concurrencies stay
    [int64] values, and the live one stays at or below the maximum. *)
Definition governed (s : Syncer) : Prop :=
  in_int64 (concurrency s) = true
  /\ in_int64 (goalConcurrency s) = true
  /\ concurrency s <= maxConcurrency s.

Section ControllerRun.

Variable convOutOfRange : float -> Z.

(** What [syncRange] does with the controller for each result, after
    [processBlocks]: the size of the result joins the recent sizes, the tick
    is counted, and [adjustWorkers] runs. *)
Definition syncRange_tick (size : Z) (s : Syncer) : bool * Syncer :=
  adjustWorkers convOutOfRange
    (set_lastAdjustment (wrap64 (lastAdjustment s + 1))
       (set_recentBlockSizes (recentBlockSizes s ++ [size]) s)).

(** The steps that write the controller's fields during a range; each runs
    as a whole (the processor alone writes the sizes and the tick count, and
    [concurrencyLock] guards the rest). *)
Inductive controllerStep : Type :=
| Tick (size : Z)
| FetcherTurn.

Definition controllerStep_run (st : controllerStep) (s : Syncer) : bool * Syncer :=
  match st with
  | Tick size => syncRange_tick size s
  | FetcherTurn => (false, snd (fetcher_turn s))
  end.

(** The syncer after the steps, and how many of them asked for a new
    fetcher. *)
Fixpoint controllerRun (steps : list controllerStep) (s : Syncer) : nat * Syncer :=
  match steps with
  | [] => (O, s)
  | st :: rest =>
      let (shouldCreate, s') := controllerStep_run st s in
      let (n, s'') := controllerRun rest s' in
      ((if shouldCreate then S n else n), s'')
  end.

Definition ticks (steps : list controllerStep) : Z :=
  Z.of_nat (List.length
              (filter (fun st => match st with Tick _ => true | FetcherTurn => false end)
                 steps)).

End ControllerRun.

(** ** The start of [Sync] *)

Section SyncStart.

Variable W : Type.
Variable helper : Helper W.
Variable sentinelText : error -> string.

Local Open Scope go_scope.

(** [Sync] up to the first decision of its loop: [setStart], then one turn. *)
Definition Sync_begin (startIndex endIndex : Z) : M W turn :=
  err <- setStart helper startIndex ;;
  match err with
  | Some e =>
      ret (Failed (Errorf ErrSetStartIndexFailed
                     (": " ++ Error sentinelText e)%string))
  | None => Sync_turn helper sentinelText endIndex
  end.

End SyncStart.

Arguments Sync_begin {W} helper sentinelText startIndex endIndex _.

(** ** A node for the examples *)

Module Node.

(** A node that serves [Mock.blockAt] at every index. *)
Definition chain : BlockHelper unit :=
  mkBlockHelper unit (fun i w => ((Some (Mock.blockAt i), None), w)).

(** A node on another branch from index [fork] on. *)
Definition forkAt (fork i : Z) : Block :=
  if i <? fork then Mock.blockAt i
  else mkBlock (mkBlockIdentifier i ("other " ++ fmt_d i))
         (if i =? fork then Mock.ident (i - 1)
          else mkBlockIdentifier (i - 1) ("other " ++ fmt_d (i - 1)))
         0.

Definition forked (fork : Z) : BlockHelper unit :=
  mkBlockHelper unit (fun i w => ((Some (forkAt fork i), None), w)).

(** A node that reports every index as an orphan head, the sentinel wrapped
    in a message. *)
Definition orphaning : BlockHelper unit :=
  mkBlockHelper unit
    (fun i w => ((None, Some (Errorf ErrOrphanHead ": reorg in progress")), w)).

(** A node that is down. *)
Definition down : BlockHelper unit :=
  mkBlockHelper unit (fun i w => ((None, Some (External "connection refused")), w)).

Definition helperDown : Helper unit :=
  mkHelper unit (fun w => (inr (External "connection refused"), w)).

Definition ErrFetchBlockReorgFailed : error := External "unable to fetch block during re-org".
Definition ErrBlockProcessFailed : error := External "unable to process block".

(** The cache holding the results for the blocks of the chain from [from],
    [count] of them. *)
Fixpoint cached (from : Z) (count : nat) : Cache :=
  match count with
  | O => ZMap.empty (option blockResult)
  | S k =>
      ZMap.add (from + Z.of_nat k) (Mock.fresh (Mock.blockAt (from + Z.of_nat k)))
        (cached from k)
  end.

Definition pipeline (m : Machine unit) (c : Cache) : Pipeline unit :=
  mkPipeline m c [].

(** The same, with the events written down, none so far. *)
Definition traced (m : Machine unit) (c : Cache) : Pipeline (Traced unit) :=
  mkPipeline (mkMachine (syncer m) (world m, []) (calls m)) c [].

End Node.

(** ** Proof steps *)

(** Run the monad of [processBlock] and [checkRemove] one layer down. *)
Ltac go_run :=
  unfold processBlock, checkRemove, bind, ret, get, modify, invoke, panic;
  simpl.

(** Turn the boolean tests of the range driver into (in)equalities. *)
Ltac z_bools :=
  repeat match goal with
         | H : (_ =? _) = true |- _ => apply Z.eqb_eq in H
         | H : (_ =? _) = false |- _ => apply Z.eqb_neq in H
         | H : (_ >? _) = true |- _ => rewrite Z.gtb_ltb in H; apply Z.ltb_lt in H
         | H : (_ >? _) = false |- _ => rewrite Z.gtb_ltb in H; apply Z.ltb_ge in H
         end.


Example fmt_d_5 : fmt_d 5 = "5".
Proof. reflexivity. Qed.

Example fmt_d_neg : fmt_d (-17) = "-17".
Proof. reflexivity. Qed.

Example wrap64_max : wrap64 (int64_max + 1) = int64_min.
Proof. reflexivity. Qed.


(** The sub-tests of [TestProcessBlock], in order, on block results. *)
Example test_no_block_exists :
  Mock.run Mock.accepting [Mock.fresh Mock.block0]
    (Mock.start (Mock.syncerAt (Some Mock.id0) 0 []))
  = (Returns None,
     mkMachine (Mock.syncerAt (Some Mock.id0) 1 [Mock.id0]) tt
       [CallBlockAdded (Some Mock.block0)]).
Proof. reflexivity. Qed.

Example test_orphan_genesis :
  processBlock Mock.accepting Mock.hash (Mock.fresh Mock.orphanGenesis)
    (Mock.start (Mock.syncerAt (Some Mock.id0) 1 [Mock.id0]))
  = (Returns (Some ErrCannotRemoveGenesisBlock),
     Mock.start (Mock.syncerAt (Some Mock.id0) 1 [Mock.id0])).
Proof. reflexivity. Qed.

Example test_orphan_block :
  Mock.run Mock.accepting
    [Mock.fresh Mock.block1; Mock.fresh Mock.block2; Mock.fresh Mock.block1a;
     Mock.fresh Mock.block2]
    (Mock.start (Mock.syncerAt (Some Mock.id0) 1 [Mock.id0]))
  = (Returns None,
     mkMachine (Mock.syncerAt (Some Mock.id0) 3 [Mock.id0; Mock.id1a; Mock.id2])
       tt
       [CallBlockAdded (Some Mock.block1); CallBlockRemoved (Some Mock.id1);
        CallBlockAdded (Some Mock.block1a); CallBlockAdded (Some Mock.block2)]).
Proof. reflexivity. Qed.

Example test_out_of_order_block :
  processBlock Mock.accepting Mock.hash (Mock.fresh Mock.block5)
    (Mock.start (Mock.syncerAt (Some Mock.id0) 3 [Mock.id0; Mock.id1a; Mock.id2]))
  = (Returns (Some (Errorf ErrOutOfOrder ": got block 5 instead of 3")),
     Mock.start (Mock.syncerAt (Some Mock.id0) 3 [Mock.id0; Mock.id1a; Mock.id2])).
Proof. reflexivity. Qed.

Example test_omitted_block :
  processBlock Mock.accepting Mock.hash (Mock.omitted 3)
    (Mock.start (Mock.syncerAt (Some Mock.id0) 3 [Mock.id0; Mock.id1a; Mock.id2]))
  = (Returns None,
     Mock.start (Mock.syncerAt (Some Mock.id0) 4 [Mock.id0; Mock.id1a; Mock.id2])).
Proof. reflexivity. Qed.

(** ** Facts about slices and machine integers *)

Lemma slice_last_app {A : Type} (l : list A) (x : A) :
  slice_last (l ++ [x]) = Some x.
Proof. unfold slice_last. rewrite rev_app_distr. reflexivity. Qed.

Lemma slice_last_nil_inv {A : Type} (l : list A) :
  slice_last l = None -> l = [].
Proof.
  destruct l as [|a l] using rev_ind; [reflexivity|].
  rewrite slice_last_app. discriminate.
Qed.

Lemma slice_last_some_inv {A : Type} (l : list A) (x : A) :
  slice_last l = Some x -> l = removelast l ++ [x].
Proof.
  destruct l as [|a l _] using rev_ind; [discriminate|].
  rewrite slice_last_app. intros [= ->]. now rewrite removelast_last.
Qed.

Lemma slice_last_length {A : Type} (l : list A) (x : A) :
  slice_last l = Some x -> (Z.of_nat (List.length l) =? 0) = false.
Proof.
  intros H. apply slice_last_some_inv in H. rewrite H, length_app. simpl.
  apply Z.eqb_neq. lia.
Qed.

Lemma string_app_nil_r (s : string) : (s ++ "")%string = s.
Proof. induction s as [|c s IH]; simpl; [reflexivity|now rewrite IH]. Qed.

Lemma string_app_assoc (a b c : string) :
  ((a ++ b) ++ c)%string = (a ++ (b ++ c))%string.
Proof. induction a as [|x a IH]; simpl; [reflexivity|now rewrite IH]. Qed.

Lemma wrap64_in_range (z : Z) : in_int64 z = true -> wrap64 z = z.
Proof.
  unfold in_int64, wrap64, int64_min, int64_max.
  rewrite andb_true_iff, !Z.leb_le. intros [Hlo Hhi].
  rewrite Z.mod_small; lia.
Qed.

Lemma wrap64_range (z : Z) : in_int64 (wrap64 z) = true.
Proof.
  unfold in_int64, wrap64, int64_min, int64_max.
  rewrite andb_true_iff, !Z.leb_le.
  pose proof (Z.mod_pos_bound (z + 2 ^ 63) (2 ^ 64) ltac:(lia)). lia.
Qed.

Lemma trimmed_bound (l : list BlockIdentifier) (x : BlockIdentifier) :
  Z.of_nat (List.length l) <= PastBlockSize ->
  Z.of_nat (List.length (trimmed (l ++ [x]))) <= PastBlockSize.
Proof.
  unfold trimmed, PastBlockSize. intros H.
  destruct (Z.of_nat (List.length (l ++ [x])) >? 20) eqn:Hgt.
  - destruct l as [|a l]; simpl in *; rewrite ?length_app in *; simpl in *; lia.
  - rewrite Z.gtb_ltb in Hgt. apply Z.ltb_ge in Hgt. exact Hgt.
Qed.

Lemma trimmed_last (l : list BlockIdentifier) (x : BlockIdentifier) :
  slice_last (trimmed (l ++ [x])) = Some x.
Proof.
  unfold trimmed.
  destruct (Z.of_nat (List.length (l ++ [x])) >? PastBlockSize) eqn:Hgt;
    [|apply slice_last_app].
  destruct l as [|a l]; [discriminate Hgt|]. simpl. apply slice_last_app.
Qed.

Lemma trimmed_short (l : list BlockIdentifier) (x : BlockIdentifier) :
  Z.of_nat (List.length l) < PastBlockSize -> trimmed (l ++ [x]) = l ++ [x].
Proof.
  unfold trimmed. intros H.
  destruct (Z.of_nat (List.length (l ++ [x])) >? PastBlockSize) eqn:Hgt;
    [|reflexivity].
  apply Z.gtb_lt in Hgt. rewrite length_app in Hgt. simpl in Hgt. lia.
Qed.

Lemma removelast_bound {A : Type} (l : list A) (n : Z) :
  Z.of_nat (List.length l) <= n -> Z.of_nat (List.length (removelast l)) <= n.
Proof.
  destruct l as [|a l _] using rev_ind; [trivial|].
  rewrite removelast_last, length_app. simpl. lia.
Qed.

(** ** The state machine, case by case *)

Section StateMachineFacts.

Variable W : Type.
Variable handler : Handler W.
Variable Hash : option BlockIdentifier -> string.

Implicit Types (m : Machine W) (br : blockResult) (t : BlockIdentifier).

(** [checkRemove] only reads the syncer. *)
Lemma checkRemove_reads br m : snd (checkRemove Hash br m) = m.
Proof.
  go_run.
  repeat match goal with
         | |- context [if ?c then _ else _] => destruct c
         | |- context [match ?x with _ => _ end] => destruct x
         end; reflexivity.
Qed.

(** With an empty window [checkRemove] asks for nothing and checks
    nothing. *)
Lemma checkRemove_empty br m :
  pastBlocks (syncer m) = [] ->
  checkRemove Hash br m = (Returns (false, None, None), m).
Proof. intros H. go_run. rewrite H. reflexivity. Qed.

(** When an unwind is triggered, [checkRemove] is [attemptOrphan] on the
    tail. *)
Lemma checkRemove_unwind br m t :
  slice_last (pastBlocks (syncer m)) = Some t ->
  unwindTriggered Hash (syncer m) br = true ->
  checkRemove Hash br m = (Returns (attemptOrphan Hash (syncer m) t), m).
Proof.
  intros Ht Hu. go_run. unfold unwindTriggered in Hu.
  rewrite (slice_last_length _ _ Ht), Ht in *.
  destruct (orphanHead br); [reflexivity|]. simpl in Hu.
  destruct (block br) as [b|]; [|discriminate].
  apply andb_true_iff in Hu as [-> ->]. reflexivity.
Qed.

(** A block for the expected index that connects to the tail passes. *)
Lemma checkRemove_connects i b m t :
  slice_last (pastBlocks (syncer m)) = Some t ->
  Index (Block_BlockIdentifier b) = nextIndex (syncer m) ->
  String.eqb (Hash (Some (Block_ParentBlockIdentifier b))) (Hash (Some t)) = true ->
  checkRemove Hash (mkBlockResult i (Some b) false) m
  = (Returns (false, Some t, None), m).
Proof.
  intros Ht Hi Hp. go_run.
  rewrite (slice_last_length _ _ Ht), Ht, Hi, Z.eqb_refl, Hp. reflexivity.
Qed.

(** A block for another index is refused when the window is not empty. *)
Lemma checkRemove_out_of_order i b m :
  pastBlocks (syncer m) <> [] ->
  Index (Block_BlockIdentifier b) <> nextIndex (syncer m) ->
  checkRemove Hash (mkBlockResult i (Some b) false) m
  = (Returns (false, None,
              Some (Errorf ErrOutOfOrder
                      (": got block " ++ fmt_d (Index (Block_BlockIdentifier b))
                       ++ " instead of " ++ fmt_d (nextIndex (syncer m)))%string)),
     m).
Proof.
  intros Hne Hi. go_run.
  destruct (slice_last (pastBlocks (syncer m))) as [t|] eqn:Ht.
  - rewrite (slice_last_length _ _ Ht).
    apply Z.eqb_neq in Hi. rewrite Hi. reflexivity.
  - apply slice_last_nil_inv in Ht. contradiction.
Qed.

(** C1, as the code has it.  When an unwind is triggered (an orphan-head
    result, or a block for the expected index whose parent does not
    hash-equal the tail of [pastBlocks]) and the tail does not hash-equal
    the genesis identifier, [processBlock] calls [Handler.BlockRemoved]
    exactly once, with the tail, and makes no other call.  If that call
    returns no error, the tail is removed from [pastBlocks] and [nextIndex]
    becomes the index of the removed tail; if it returns an error,
    [processBlock] returns it and the syncer is as before. *)
Theorem processBlock_unwind br m t :
  slice_last (pastBlocks (syncer m)) = Some t ->
  String.eqb (Hash (genesisBlock (syncer m))) (Hash (Some t)) = false ->
  unwindTriggered Hash (syncer m) br = true ->
  let (r, m') := processBlock handler Hash (Some br) m in
  calls m' = calls m ++ [CallBlockRemoved (Some t)]
  /\ match fst (BlockRemoved handler (Some t) (world m)) with
     | None =>
         r = Returns None
         /\ pastBlocks (syncer m') = removelast (pastBlocks (syncer m))
         /\ nextIndex (syncer m') = Index t
     | Some e => r = Returns (Some e) /\ syncer m' = syncer m
     end.
Proof.
  intros Ht Hg Hu. unfold processBlock.
  assert (Hfresh : is_nil (block br) && negb (orphanHead br) = false).
  { unfold unwindTriggered in Hu.
    destruct (block br), (orphanHead br); simpl in *; congruence. }
  rewrite Hfresh. unfold bind at 1.
  rewrite (checkRemove_unwind br m t Ht Hu).
  unfold attemptOrphan. rewrite Hg.
  unfold bind, invoke, get, modify, ret. simpl.
  destruct (BlockRemoved handler (Some t) (world m)) as [[e|] w'] eqn:Hcall;
    simpl.
  - split; [reflexivity|split; reflexivity].
  - apply slice_last_some_inv in Ht.
    destruct (pastBlocks (syncer m)) as [|x l] eqn:Hp.
    + destruct (removelast (@nil BlockIdentifier)); discriminate.
    + simpl. repeat split; reflexivity.
Qed.

(** *** The four ways through [processBlock] *)

Lemma processBlock_omitted br m :
  omittedResult br = true ->
  processBlock handler Hash (Some br) m
  = (Returns None,
     mkMachine (set_nextIndex (wrap64 (nextIndex (syncer m) + 1)) (syncer m))
       (world m) (calls m)).
Proof. unfold omittedResult, processBlock. intros ->. reflexivity. Qed.

Lemma processBlock_refused br m shouldRemove lastBlock e :
  omittedResult br = false ->
  checkRemove Hash br m = (Returns (shouldRemove, lastBlock, Some e), m) ->
  processBlock handler Hash (Some br) m = (Returns (Some e), m).
Proof.
  unfold omittedResult, processBlock. intros -> Hc.
  unfold bind at 1. rewrite Hc. reflexivity.
Qed.

Lemma processBlock_check_panics br m reason :
  omittedResult br = false ->
  checkRemove Hash br m = (Panic reason, m) ->
  processBlock handler Hash (Some br) m = (Panic reason, m).
Proof.
  unfold omittedResult, processBlock. intros -> Hc.
  unfold bind at 1. rewrite Hc. reflexivity.
Qed.

Lemma processBlock_removes br m t :
  omittedResult br = false ->
  checkRemove Hash br m = (Returns (true, Some t, None), m) ->
  processBlock handler Hash (Some br) m
  = let (err, w') := BlockRemoved handler (Some t) (world m) in
    let log := calls m ++ [CallBlockRemoved (Some t)] in
    match err with
    | Some e => (Returns (Some e), mkMachine (syncer m) w' log)
    | None =>
        match pastBlocks (syncer m) with
        | [] => (Panic "slice bounds out of range", mkMachine (syncer m) w' log)
        | _ :: _ =>
            (Returns None,
             mkMachine
               (set_nextIndex (Index t)
                  (set_pastBlocks (removelast (pastBlocks (syncer m)))
                     (syncer m)))
               w' log)
        end
    end.
Proof.
  unfold omittedResult, processBlock. intros -> Hc.
  unfold bind at 1. rewrite Hc.
  unfold bind, invoke, get, modify, ret, panic. simpl.
  destruct (BlockRemoved handler (Some t) (world m)) as [[e|] w']; simpl;
    [reflexivity|].
  destruct (pastBlocks (syncer m)); reflexivity.
Qed.

Lemma processBlock_adds br m lastBlock :
  omittedResult br = false ->
  checkRemove Hash br m = (Returns (false, lastBlock, None), m) ->
  processBlock handler Hash (Some br) m
  = let (err, w') := BlockAdded handler (block br) (world m) in
    let log := calls m ++ [CallBlockAdded (block br)] in
    match err with
    | Some e => (Returns (Some e), mkMachine (syncer m) w' log)
    | None =>
        match block br with
        | None => (Panic "nil pointer dereference", mkMachine (syncer m) w' log)
        | Some b =>
            (Returns None,
             mkMachine
               (set_nextIndex (wrap64 (Index (Block_BlockIdentifier b) + 1))
                  (set_pastBlocks
                     (trimmed (pastBlocks (syncer m) ++ [Block_BlockIdentifier b]))
                     (syncer m)))
               w' log)
        end
    end.
Proof.
  unfold omittedResult, processBlock. intros -> Hc.
  unfold bind at 1. rewrite Hc.
  unfold bind, invoke, get, modify, ret, panic, trimmed. simpl.
  destruct (BlockAdded handler (block br) (world m)) as [[e|] w']; simpl;
    [reflexivity|].
  destruct (block br) as [b|]; [|reflexivity]. simpl.
  destruct (Z.of_nat (List.length (pastBlocks (syncer m) ++ [Block_BlockIdentifier b]))
            >? PastBlockSize); reflexivity.
Qed.

(** What [checkRemove] can answer. *)
Lemma checkRemove_answers br m :
  (exists reason, checkRemove Hash br m = (Panic reason, m))
  \/ (exists sr lb e, checkRemove Hash br m = (Returns (sr, lb, Some e), m))
  \/ (exists lb, checkRemove Hash br m = (Returns (false, lb, None), m))
  \/ (exists t, slice_last (pastBlocks (syncer m)) = Some t
                /\ checkRemove Hash br m = (Returns (true, Some t, None), m)).
Proof.
  unfold checkRemove, bind, get, ret, panic, attemptOrphan. simpl.
  destruct (Z.of_nat (List.length (pastBlocks (syncer m))) =? 0);
    [right; right; left; eauto|].
  destruct (slice_last (pastBlocks (syncer m))) as [t|] eqn:Ht; [|left; eauto].
  assert (Horphan :
    (exists sr lb e,
        (Returns
           (if String.eqb (Hash (genesisBlock (syncer m))) (Hash (Some t))
            then (false, @None BlockIdentifier, Some ErrCannotRemoveGenesisBlock)
            else (true, Some t, None)), m)
        = (Returns (sr, lb, Some e), m))
    \/ (Returns
           (if String.eqb (Hash (genesisBlock (syncer m))) (Hash (Some t))
            then (false, @None BlockIdentifier, Some ErrCannotRemoveGenesisBlock)
            else (true, Some t, None)), m)
        = (Returns (true, Some t, @None error), m)).
  { destruct (String.eqb _ _); [left; eauto|right; reflexivity]. }
  destruct (orphanHead br).
  - destruct Horphan as [H|H]; [right; left; exact H|].
    right; right; right. exists t. split; [reflexivity|exact H].
  - destruct (block br) as [b|]; [|left; eauto].
    destruct (negb (Index (Block_BlockIdentifier b) =? nextIndex (syncer m)));
      [right; left; eauto|].
    destruct (negb _).
    + destruct Horphan as [H|H]; [right; left; exact H|].
      right; right; right. exists t. split; [reflexivity|exact H].
    + right; right; left; eauto.
Qed.

(** C4.  When an unwind is triggered (orphan-head result, or a block for the
    expected index whose parent does not hash-equal the tail) while the tail
    of [pastBlocks] hash-equals the genesis identifier, [processBlock] returns
    [ErrCannotRemoveGenesisBlock]; the machine, its log of handler calls
    included, is as before. *)
Theorem processBlock_cannot_remove_genesis br m t :
  slice_last (pastBlocks (syncer m)) = Some t ->
  String.eqb (Hash (genesisBlock (syncer m))) (Hash (Some t)) = true ->
  unwindTriggered Hash (syncer m) br = true ->
  processBlock handler Hash (Some br) m
  = (Returns (Some ErrCannotRemoveGenesisBlock), m).
Proof.
  intros Ht Hg Hu.
  assert (Hfresh : omittedResult br = false).
  { unfold unwindTriggered in Hu. unfold omittedResult.
    destruct (block br), (orphanHead br); simpl in *; congruence. }
  apply (processBlock_refused br m false None); [exact Hfresh|].
  rewrite (checkRemove_unwind br m t Ht Hu).
  unfold attemptOrphan. rewrite Hg. reflexivity.
Qed.

(** C2, as the code has it.  For a fresh result whose block has the expected
    index, with [pastBlocks] empty or the block's parent hash-equal to its
    tail, [processBlock] calls [Handler.BlockAdded] exactly once, with the
    block, and makes no other call.  If that call returns no error, the
    block's identifier becomes the tail of [pastBlocks] (the head is dropped
    when the size exceeds [PastBlockSize]) and [nextIndex] becomes the block's
    index plus one (an [int64] sum); if it returns an error, [processBlock]
    returns it and the syncer is as before. *)
Theorem processBlock_append i b m :
  Index (Block_BlockIdentifier b) = nextIndex (syncer m) ->
  pastBlocks (syncer m) = []
  \/ (exists t, slice_last (pastBlocks (syncer m)) = Some t
                /\ String.eqb (Hash (Some (Block_ParentBlockIdentifier b)))
                     (Hash (Some t)) = true) ->
  let (r, m') := processBlock handler Hash (Some (mkBlockResult i (Some b) false)) m in
  calls m' = calls m ++ [CallBlockAdded (Some b)]
  /\ match fst (BlockAdded handler (Some b) (world m)) with
     | None =>
         r = Returns None
         /\ pastBlocks (syncer m')
            = trimmed (pastBlocks (syncer m) ++ [Block_BlockIdentifier b])
         /\ slice_last (pastBlocks (syncer m')) = Some (Block_BlockIdentifier b)
         /\ (Z.of_nat (List.length (pastBlocks (syncer m))) < PastBlockSize ->
             pastBlocks (syncer m')
             = pastBlocks (syncer m) ++ [Block_BlockIdentifier b])
         /\ nextIndex (syncer m') = wrap64 (Index (Block_BlockIdentifier b) + 1)
         /\ (Index (Block_BlockIdentifier b) < int64_max ->
             int64_min <= Index (Block_BlockIdentifier b) ->
             nextIndex (syncer m') = Index (Block_BlockIdentifier b) + 1)
     | Some e => r = Returns (Some e) /\ syncer m' = syncer m
     end.
Proof.
  intros Hi Hconn.
  assert (Hc : exists lb, checkRemove Hash (mkBlockResult i (Some b) false) m
                          = (Returns (false, lb, None), m)).
  { destruct Hconn as [Hnil|[t [Ht Hp]]].
    - exists None. apply checkRemove_empty. exact Hnil.
    - exists (Some t). apply checkRemove_connects; assumption. }
  destruct Hc as [lb Hc].
  rewrite (processBlock_adds (mkBlockResult i (Some b) false) m lb eq_refl Hc).
  simpl.
  destruct (BlockAdded handler (Some b) (world m)) as [[e|] w']; simpl.
  - repeat split; reflexivity.
  - split; [reflexivity|]. split; [reflexivity|]. split; [reflexivity|].
    split; [apply trimmed_last|]. split; [apply trimmed_short|].
    split; [reflexivity|].
    intros Hhi Hlo. apply wrap64_in_range.
    unfold in_int64, int64_min, int64_max in *.
    apply andb_true_iff. rewrite !Z.leb_le. lia.
Qed.

(** The index check where it is reached.  With a non-empty [pastBlocks], a
    fresh result whose block does not have the expected index makes
    [processBlock] fail with an error that wraps [ErrOutOfOrder] and whose
    message contains "got block <index received> instead of <nextIndex>";
    nothing is called and nothing changes. *)
Lemma processBlock_out_of_order (sentinelText : error -> string) i b m :
  pastBlocks (syncer m) <> [] ->
  Index (Block_BlockIdentifier b) <> nextIndex (syncer m) ->
  exists e,
    processBlock handler Hash (Some (mkBlockResult i (Some b) false)) m
    = (Returns (Some e), m)
    /\ errors_Is e ErrOutOfOrder = true
    /\ exists before after,
        Error sentinelText e
        = (before
           ++ ("got block " ++ fmt_d (Index (Block_BlockIdentifier b))
               ++ " instead of " ++ fmt_d (nextIndex (syncer m)))
           ++ after)%string.
Proof.
  intros Hne Hi.
  eexists. split; [|split].
  - apply (processBlock_refused (mkBlockResult i (Some b) false) m false None);
      [reflexivity|].
    apply checkRemove_out_of_order; assumption.
  - reflexivity.
  - exists (sentinelText ErrOutOfOrder ++ ": ")%string, ""%string.
    cbn [Error]. rewrite string_app_nil_r, string_app_assoc. reflexivity.
Qed.

(** C6.  [processBlock] keeps [pastBlocks] within [PastBlockSize]: whatever
    the result, the handler and the outcome of the call, if the window holds
    at most [PastBlockSize] identifiers before the call, it does after it. *)
Theorem processBlock_window_bounded (r : option blockResult) m :
  Z.of_nat (List.length (pastBlocks (syncer m))) <= PastBlockSize ->
  Z.of_nat (List.length (pastBlocks (syncer (snd (processBlock handler Hash r m)))))
  <= PastBlockSize.
Proof.
  intros Hb. destruct r as [br|]; [|exact Hb].
  destruct (omittedResult br) eqn:Ho.
  { rewrite (processBlock_omitted br m Ho). exact Hb. }
  destruct (checkRemove_answers br m)
    as [[reason Hc]|[(sr & lb & e & Hc)|[[lb Hc]|(t & Ht & Hc)]]].
  - rewrite (processBlock_check_panics br m reason Ho Hc). exact Hb.
  - rewrite (processBlock_refused br m sr lb e Ho Hc). exact Hb.
  - rewrite (processBlock_adds br m lb Ho Hc).
    destruct (BlockAdded handler (block br) (world m)) as [[e|] w']; simpl;
      [exact Hb|].
    destruct (block br) as [b|]; simpl; [|exact Hb].
    apply trimmed_bound. exact Hb.
  - rewrite (processBlock_removes br m t Ho Hc).
    destruct (BlockRemoved handler (Some t) (world m)) as [[e|] w']; simpl;
      [exact Hb|].
    destruct (pastBlocks (syncer m)) as [|x l] eqn:Hp; simpl;
      [rewrite Hp; exact Hb|].
    apply (removelast_bound (x :: l)). exact Hb.
Qed.

(** C10.  Whenever [processBlock] returns an error (for a nil result, from
    [checkRemove], or from a handler callback), [nextIndex] and [pastBlocks]
    are what they were before the call. *)
Theorem processBlock_error_atomic (r : option blockResult) m e :
  fst (processBlock handler Hash r m) = Returns (Some e) ->
  nextIndex (syncer (snd (processBlock handler Hash r m))) = nextIndex (syncer m)
  /\ pastBlocks (syncer (snd (processBlock handler Hash r m)))
     = pastBlocks (syncer m).
Proof.
  destruct r as [br|]; [|intros _; split; reflexivity].
  destruct (omittedResult br) eqn:Ho.
  { rewrite (processBlock_omitted br m Ho). discriminate. }
  destruct (checkRemove_answers br m)
    as [[reason Hc]|[(sr & lb & e' & Hc)|[[lb Hc]|(t & Ht & Hc)]]].
  - rewrite (processBlock_check_panics br m reason Ho Hc). discriminate.
  - rewrite (processBlock_refused br m sr lb e' Ho Hc). split; reflexivity.
  - rewrite (processBlock_adds br m lb Ho Hc).
    destruct (BlockAdded handler (block br) (world m)) as [[e'|] w']; simpl;
      [split; reflexivity|].
    destruct (block br); discriminate.
  - rewrite (processBlock_removes br m t Ho Hc).
    destruct (BlockRemoved handler (Some t) (world m)) as [[e'|] w']; simpl;
      [split; reflexivity|].
    destruct (pastBlocks (syncer m)); discriminate.
Qed.

(** C3 on the code.  A fresh result whose block does not have the expected
    index, on an empty window: [checkRemove] returns before the index check,
    so [processBlock] raises no [ErrOutOfOrder].  It makes exactly one handler
    call, [Handler.BlockAdded] with the block, and returns what the handler
    returned; if the handler accepts, the block is the whole window and
    [nextIndex] follows the block's index, not the index that was
    expected. *)
Theorem processBlock_out_of_order_on_empty_window i b m :
  pastBlocks (syncer m) = [] ->
  Index (Block_BlockIdentifier b) <> nextIndex (syncer m) ->
  let (r, m') := processBlock handler Hash (Some (mkBlockResult i (Some b) false)) m in
  calls m' = calls m ++ [CallBlockAdded (Some b)]
  /\ r = Returns (fst (BlockAdded handler (Some b) (world m)))
  /\ (fst (BlockAdded handler (Some b) (world m)) = None ->
      pastBlocks (syncer m') = [Block_BlockIdentifier b]
      /\ nextIndex (syncer m') = wrap64 (Index (Block_BlockIdentifier b) + 1)).
Proof.
  intros Hnil _.
  rewrite (processBlock_adds (mkBlockResult i (Some b) false) m None eq_refl
             (checkRemove_empty _ m Hnil)).
  cbn [block]. rewrite Hnil.
  destruct (BlockAdded handler (Some b) (world m)) as [[e|] w']; cbn [fst].
  - split; [reflexivity|]. split; [reflexivity|discriminate].
  - split; [reflexivity|]. split; [reflexivity|]. intros _.
    split; reflexivity.
Qed.

(** C9 on the code.  An orphan-head result (nil block) on an empty window:
    [checkRemove] returns before it looks at [orphanHead], and [processBlock]
    makes exactly one handler call, [Handler.BlockAdded] with the nil block;
    if the handler accepts, the next statement dereferences the nil block
    and the call panics. *)
Theorem processBlock_orphan_on_empty_window i m :
  pastBlocks (syncer m) = [] ->
  let (r, m') := processBlock handler Hash (Some (mkBlockResult i None true)) m in
  calls m' = calls m ++ [CallBlockAdded None]
  /\ (fst (BlockAdded handler None (world m)) = None ->
      r = Panic "nil pointer dereference").
Proof.
  intros Hnil.
  rewrite (processBlock_adds (mkBlockResult i None true) m None eq_refl
             (checkRemove_empty _ m Hnil)).
  simpl. destruct (BlockAdded handler None (world m)) as [[e|] w']; simpl.
  - split; [reflexivity|discriminate].
  - split; reflexivity.
Qed.

(** [checkRemove] asks for a removal only when an unwind is triggered. *)
Lemma checkRemove_removal_is_unwind br m t :
  checkRemove Hash br m = (Returns (true, Some t, None), m) ->
  unwindTriggered Hash (syncer m) br = true.
Proof.
  unfold checkRemove, unwindTriggered, bind, get, ret, panic, attemptOrphan.
  simpl.
  destruct (Z.of_nat (List.length (pastBlocks (syncer m))) =? 0);
    [discriminate|].
  destruct (slice_last (pastBlocks (syncer m))) as [t'|]; [|discriminate].
  destruct (orphanHead br); [reflexivity|]. simpl.
  destruct (block br) as [b|]; [|discriminate].
  destruct (Index (Block_BlockIdentifier b) =? nextIndex (syncer m)); simpl;
    [|discriminate].
  destruct (String.eqb (Hash (Some (Block_ParentBlockIdentifier b)))
              (Hash (Some t'))); simpl; [discriminate|reflexivity].
Qed.

End StateMachineFacts.

(** ** The range driver and the window *)

Section DriverFacts.

Variable W : Type.
Variable handler : Handler W.
Variable helper : Helper W.
Variable Hash : option BlockIdentifier -> string.
Variable sentinelText : error -> string.

Implicit Types (m : Machine W).

(** [setStart] does not touch the window. *)
Lemma setStart_pastBlocks index m :
  pastBlocks (syncer (snd (setStart helper index m))) = pastBlocks (syncer m).
Proof.
  unfold setStart, bind, invoke, modify, ret. simpl.
  destruct (NetworkStatus helper (world m)) as [[ns|err] w']; simpl;
    [|reflexivity].
  destruct (negb (index =? -1)); reflexivity.
Qed.

(** C5, as the code has it.  An operation on the syncer ([setStart], or
    [processBlock] on any result) that does not trigger an unwind leaves
    [pastBlocks] non-empty whenever [pastBlocks] was non-empty before it, or
    the operation is a [processBlock] on a result carrying a block that
    returns no error. *)
Theorem pastBlocks_stays_nonempty (op : operation) m :
  unwinds Hash (syncer m) op = false ->
  pastBlocks (syncer m) <> [] \/ addsBlock handler Hash op m ->
  pastBlocks (syncer (perform handler helper Hash op m)) <> [].
Proof.
  intros Hu Hpre.
  assert (Hsame : pastBlocks (syncer (perform handler helper Hash op m))
                  = pastBlocks (syncer m) ->
                  ~ addsBlock handler Hash op m ->
                  pastBlocks (syncer (perform handler helper Hash op m)) <> []).
  { intros -> Hno. destruct Hpre as [H|H]; [exact H|contradiction]. }
  destruct op as [index|[br|]].
  - apply Hsame; [apply setStart_pastBlocks|intros []].
  - cbn [perform addsBlock unwinds] in *.
    destruct (omittedResult br) eqn:Ho.
    { apply Hsame.
      - rewrite (processBlock_omitted W handler Hash br m Ho). reflexivity.
      - intros [Hb _]. unfold omittedResult in Ho.
        destruct (block br); [discriminate|contradiction]. }
    destruct (checkRemove_answers W Hash br m)
      as [[reason Hc]|[(sr & lb & e & Hc)|[[lb Hc]|(t & Ht & Hc)]]].
    + apply Hsame.
      * rewrite (processBlock_check_panics W handler Hash br m reason Ho Hc).
        reflexivity.
      * rewrite (processBlock_check_panics W handler Hash br m reason Ho Hc).
        intros [_ H]. discriminate.
    + apply Hsame.
      * rewrite (processBlock_refused W handler Hash br m sr lb e Ho Hc).
        reflexivity.
      * rewrite (processBlock_refused W handler Hash br m sr lb e Ho Hc).
        intros [_ H]. discriminate.
    + pose proof (processBlock_adds W handler Hash br m lb Ho Hc) as Hrun.
      destruct (BlockAdded handler (block br) (world m)) as [[e|] w'];
        cbv beta iota zeta in Hrun.
      * apply Hsame; rewrite Hrun; [reflexivity|].
        intros [_ H]. discriminate.
      * destruct (block br) as [b|].
        -- rewrite Hrun. cbn [snd syncer pastBlocks set_nextIndex set_pastBlocks].
           intros Hnil.
           pose proof (trimmed_last (pastBlocks (syncer m)) (Block_BlockIdentifier b))
             as Hlast.
           rewrite Hnil in Hlast. discriminate.
        -- apply Hsame; rewrite Hrun; [reflexivity|].
           intros [_ H]. discriminate.
    + rewrite (checkRemove_removal_is_unwind W Hash br m t Hc) in Hu.
      discriminate.
  - apply Hsame; [reflexivity|intros []].
Qed.

(** With an [endIndex], the range end is the smaller of it and the tip. *)
Lemma effectiveEnd_min (endIndex tip : Z) :
  endIndex <> -1 -> effectiveEnd endIndex tip = Z.min endIndex tip.
Proof.
  intros Hne. unfold effectiveEnd. apply Z.eqb_neq in Hne. rewrite Hne. simpl.
  destruct (endIndex >? tip) eqn:Hgt; z_bools; lia.
Qed.

Lemma log_grows (l : list Call) (c : Call) : l <> l ++ [c].
Proof.
  intros H. apply (f_equal (@List.length Call)) in H.
  rewrite length_app in H. simpl in H. lia.
Qed.

(** [nextSyncableRange] asks the helper for the network status exactly when
    [nextIndex] is not -1. *)
Lemma nextSyncableRange_consults endIndex m :
  calls (snd (nextSyncableRange helper sentinelText endIndex m))
  = calls m ++ [CallNetworkStatus]
  <-> nextIndex (syncer m) <> -1.
Proof.
  unfold nextSyncableRange, bind, get, ret, invoke. simpl.
  destruct (Z.eqb_spec (nextIndex (syncer m)) (-1)) as [He|Hne]; simpl.
  - split; [intros H; now apply log_grows in H|contradiction].
  - split; [trivial|intros _].
    destruct (NetworkStatus helper (world m)) as [[ns|err] w']; simpl;
      [|reflexivity].
    destruct (nextIndex (syncer m) >? _); reflexivity.
Qed.

(** C7.  In a call of [nextSyncableRange] that obtains a tip from
    [Helper.NetworkStatus]: the range end is the tip's index when [endIndex]
    is -1 or above it, and [endIndex] otherwise; the call reports [halt]
    exactly when [nextIndex] exceeds that range end, and otherwise returns
    it; and the loop of [Sync], on [halt], finishes exactly when [endIndex]
    is not -1 and [nextIndex] exceeds [endIndex], and otherwise sleeps and
    repeats. *)
Theorem nextSyncableRange_halts endIndex m ns w' :
  calls (snd (nextSyncableRange helper sentinelText endIndex m))
  = calls m ++ [CallNetworkStatus] ->
  NetworkStatus helper (world m) = (inl ns, w') ->
  let tip := Index (CurrentBlockIdentifier ns) in
  let next := nextIndex (syncer m) in
  let rangeEnd := effectiveEnd endIndex tip in
  (endIndex = -1 \/ endIndex > tip -> rangeEnd = tip)
  /\ (endIndex <> -1 -> endIndex <= tip -> rangeEnd = endIndex)
  /\ (exists r halt,
        fst (nextSyncableRange helper sentinelText endIndex m)
        = Returns (r, halt, None)
        /\ (halt = true <-> next > rangeEnd)
        /\ (halt = false -> r = rangeEnd))
  /\ (next > rangeEnd ->
      (fst (Sync_turn helper sentinelText endIndex m) = Returns Finished
       <-> endIndex <> -1 /\ next > endIndex)
      /\ (fst (Sync_turn helper sentinelText endIndex m) = Returns SleepAndRepeat
          <-> ~ (endIndex <> -1 /\ next > endIndex)))
  /\ (next <= rangeEnd ->
      fst (Sync_turn helper sentinelText endIndex m)
      = Returns (SyncRange rangeEnd)).
Proof.
  intros Hcall Hns tip next rangeEnd.
  apply nextSyncableRange_consults, Z.eqb_neq in Hcall.
  assert (Hrange :
    nextSyncableRange helper sentinelText endIndex m
    = (Returns (if next >? rangeEnd then (-1, true, None)
                else (rangeEnd, false, None)),
       mkMachine (syncer m) w' (calls m ++ [CallNetworkStatus]))).
  { unfold nextSyncableRange, bind, get, ret, invoke. simpl.
    rewrite Hcall, Hns. simpl. fold tip. fold (effectiveEnd endIndex tip).
    fold rangeEnd. fold next. destruct (next >? rangeEnd); reflexivity. }
  assert (Hturn :
    fst (Sync_turn helper sentinelText endIndex m)
    = Returns (if next >? rangeEnd
               then if (next >? endIndex) && negb (endIndex =? -1)
                    then Finished else SleepAndRepeat
               else SyncRange rangeEnd)).
  { unfold Sync_turn, bind at 1. rewrite Hrange.
    unfold bind, get, ret. simpl.
    destruct (next >? rangeEnd); simpl; [|reflexivity].
    subst next.
    destruct ((nextIndex (syncer m) >? endIndex) && negb (endIndex =? -1));
      reflexivity. }
  split; [|split; [|split; [|split]]].
  - unfold rangeEnd, effectiveEnd. intros [->|Hgt]; [reflexivity|].
    apply Z.gt_lt, Z.gtb_lt in Hgt. rewrite Hgt, orb_true_r. reflexivity.
  - unfold rangeEnd, effectiveEnd. intros Hne Hle.
    apply Z.eqb_neq in Hne. rewrite Hne. simpl.
    destruct (endIndex >? tip) eqn:Hgt; [|reflexivity]. z_bools. lia.
  - rewrite Hrange. simpl.
    destruct (next >? rangeEnd) eqn:Hgt; z_bools.
    + exists (-1), true.
      repeat split; intros; try lia; try discriminate; try reflexivity.
    + exists rangeEnd, false.
      repeat split; intros; try lia; try discriminate; try reflexivity.
  - intros Hhalt. rewrite Hturn.
    apply Z.gt_lt, Z.gtb_lt in Hhalt. rewrite Hhalt.
    destruct (next >? endIndex) eqn:Hgt, (endIndex =? -1) eqn:Heq; simpl;
      z_bools; repeat split; intros; try discriminate; try lia; try reflexivity.
  - intros Hle. rewrite Hturn.
    destruct (next >? rangeEnd) eqn:Hgt; z_bools; [lia|reflexivity].
Qed.

End DriverFacts.

(** ** The concurrency controller *)

Section ControllerFacts.

Variable convOutOfRange : float -> Z.

Lemma maxBlockSize_from (sizes : list Z) (start : Z) :
  let best :=
    fold_left (fun maxSize b => if b >? maxSize then b else maxSize) sizes start in
  start <= best
  /\ (forall b, In b sizes -> b <= best)
  /\ (best = start \/ In best sizes).
Proof.
  revert start. induction sizes as [|a sizes IH]; intros start; simpl.
  - repeat split; [lia|intros b []|left; reflexivity].
  - destruct (IH (if a >? start then a else start)) as (Hge & Hall & Hin).
    destruct (a >? start) eqn:Hgt;
      [apply Z.gtb_lt in Hgt|rewrite Z.gtb_ltb in Hgt; apply Z.ltb_ge in Hgt].
    + repeat split; [lia| |].
      * intros b [<-|Hb]; [exact Hge|apply Hall, Hb].
      * destruct Hin as [->|Hin]; right; [left; reflexivity|right; exact Hin].
    + repeat split; [lia| |].
      * intros b [<-|Hb]; [lia|apply Hall, Hb].
      * destruct Hin as [Heq|Hin]; [left; exact Heq|right; right; exact Hin].
Qed.

(** The loop of [adjustWorkers] finds the largest recent block size, and 0
    when there is none above 0. *)
Lemma maxBlockSize_greatest (sizes : list Z) :
  0 <= maxBlockSize sizes
  /\ (forall b, In b sizes -> b <= maxBlockSize sizes)
  /\ (maxBlockSize sizes = 0 \/ In (maxBlockSize sizes) sizes).
Proof. exact (maxBlockSize_from sizes 0). Qed.



(** The second branch sets the goal, whatever it was. *)
Lemma fastFall_goal (max : float) (s : Syncer) :
  goalConcurrency (fastFall convOutOfRange max s)
  = newGoalConcurrency convOutOfRange max s.
Proof.
  unfold fastFall.
  destruct (Z.eqb_spec (goalConcurrency s) (newGoalConcurrency convOutOfRange max s));
    simpl; [assumption|reflexivity].
Qed.

(** The second branch does not write [concurrency]. *)
Lemma fastFall_concurrency (max : float) (s : Syncer) :
  concurrency (fastFall convOutOfRange max s) = concurrency s.
Proof. unfold fastFall. destruct (negb _); reflexivity. Qed.

Lemma fastFall_lastAdjustment (max : float) (s : Syncer) :
  lastAdjustment (fastFall convOutOfRange max s)
  = if goalConcurrency s =? newGoalConcurrency convOutOfRange max s
    then lastAdjustment s else 0.
Proof. unfold fastFall. destruct (_ =? _); reflexivity. Qed.

Lemma trimWindow_controls (s : Syncer) :
  goalConcurrency (trimWindow s) = goalConcurrency s
  /\ concurrency (trimWindow s) = concurrency s
  /\ lastAdjustment (trimWindow s) = lastAdjustment s.
Proof. unfold trimWindow. destruct (_ >? _); repeat split. Qed.


End ControllerFacts.

(** ** The theorems at work on the mocks *)

Example fmt_d_zero : fmt_d 0 = "0".
Proof. reflexivity. Qed.

Lemma processBlock_unwind_witness :
  slice_last (pastBlocks (syncer Mock.afterTwo)) = Some Mock.id1
  /\ unwindTriggered Mock.hash (syncer Mock.afterTwo)
       (mkBlockResult 2 (Some Mock.block2) false) = true
  /\ let (r, m') :=
       processBlock Mock.accepting Mock.hash
         (Some (mkBlockResult 2 (Some Mock.block2) false)) Mock.afterTwo in
     calls m' = [CallBlockRemoved (Some Mock.id1)]
     /\ r = Returns None
     /\ pastBlocks (syncer m') = [Mock.id0]
     /\ nextIndex (syncer m') = 1.
Proof.
  split; [reflexivity|]. split; [reflexivity|].
  pose proof (processBlock_unwind unit Mock.accepting Mock.hash
                (mkBlockResult 2 (Some Mock.block2) false) Mock.afterTwo Mock.id1
                eq_refl eq_refl eq_refl) as H.
  destruct (processBlock Mock.accepting Mock.hash _ Mock.afterTwo) as [r m'].
  exact H.
Defined.

(** The handler refuses the removal: the unwind of C1 is triggered, the tail
    is not the genesis, and yet the tail stays and [nextIndex] does not
    move. *)
Lemma unwind_refused_by_handler :
  slice_last (pastBlocks (syncer Mock.afterTwo)) = Some Mock.id1
  /\ String.eqb (Mock.hash (genesisBlock (syncer Mock.afterTwo)))
       (Mock.hash (Some Mock.id1)) = false
  /\ unwindTriggered Mock.hash (syncer Mock.afterTwo)
       (mkBlockResult 2 (Some Mock.block2) false) = true
  /\ processBlock Mock.failing Mock.hash
       (Some (mkBlockResult 2 (Some Mock.block2) false)) Mock.afterTwo
     = (Returns (Some (External "handler failed")),
        mkMachine (syncer Mock.afterTwo) tt [CallBlockRemoved (Some Mock.id1)])
  /\ pastBlocks (syncer Mock.afterTwo)
     <> removelast (pastBlocks (syncer Mock.afterTwo))
  /\ nextIndex (syncer Mock.afterTwo) <> Index Mock.id1.
Proof. repeat split; try reflexivity; discriminate. Qed.

Lemma processBlock_append_witness :
  Index (Block_BlockIdentifier Mock.block1a) = nextIndex (syncer (Mock.start (Mock.syncerAt (Some Mock.id0) 1 [Mock.id0])))
  /\ let (r, m') :=
       processBlock Mock.accepting Mock.hash (Mock.fresh Mock.block1a)
         (Mock.start (Mock.syncerAt (Some Mock.id0) 1 [Mock.id0])) in
     calls m' = [CallBlockAdded (Some Mock.block1a)]
     /\ r = Returns None
     /\ pastBlocks (syncer m') = [Mock.id0; Mock.id1a]
     /\ nextIndex (syncer m') = 2.
Proof.
  split; [reflexivity|].
  pose proof (processBlock_append unit Mock.accepting Mock.hash 1 Mock.block1a
                (Mock.start (Mock.syncerAt (Some Mock.id0) 1 [Mock.id0]))
                eq_refl
                (or_intror (ex_intro _ Mock.id0 (conj eq_refl eq_refl)))) as H.
  change (Mock.fresh Mock.block1a)
    with (Some (mkBlockResult 1 (Some Mock.block1a) false)).
  destruct (processBlock Mock.accepting Mock.hash _ _) as [r m'].
  destruct H as (Hc & Hr & Hp & _ & _ & Hn & _).
  repeat split; assumption.
Defined.

(** The handler refuses the block: the premises of C2 hold, and yet nothing
    is appended and [nextIndex] does not move. *)
Lemma append_refused_by_handler :
  Index (Block_BlockIdentifier Mock.block1a) = 1
  /\ slice_last [Mock.id0] = Some Mock.id0
  /\ String.eqb (Mock.hash (Some (Block_ParentBlockIdentifier Mock.block1a)))
       (Mock.hash (Some Mock.id0)) = true
  /\ processBlock Mock.failing Mock.hash (Mock.fresh Mock.block1a)
       (Mock.start (Mock.syncerAt (Some Mock.id0) 1 [Mock.id0]))
     = (Returns (Some (External "handler failed")),
        mkMachine (Mock.syncerAt (Some Mock.id0) 1 [Mock.id0]) tt
          [CallBlockAdded (Some Mock.block1a)]).
Proof. repeat split; reflexivity. Qed.

Lemma processBlock_out_of_order_witness :
  exists e,
    processBlock Mock.accepting Mock.hash (Mock.fresh Mock.block5)
      (Mock.start (Mock.syncerAt (Some Mock.id0) 3 [Mock.id0; Mock.id1a; Mock.id2]))
    = (Returns (Some e),
       Mock.start (Mock.syncerAt (Some Mock.id0) 3 [Mock.id0; Mock.id1a; Mock.id2]))
    /\ errors_Is e ErrOutOfOrder = true
    /\ exists before after,
        Error Mock.texts e
        = (before ++ "got block 5 instead of 3" ++ after)%string.
Proof.
  apply (processBlock_out_of_order unit Mock.accepting Mock.hash Mock.texts 5
           Mock.block5
           (Mock.start (Mock.syncerAt (Some Mock.id0) 3 [Mock.id0; Mock.id1a; Mock.id2])));
    discriminate.
Defined.

(** On an empty window a block for another index than the expected one is
    not refused: block 5, with index 3 expected, is handed to the handler and
    becomes the window, and index 6 is expected next. *)
Lemma out_of_order_on_empty_window_adds_block :
  pastBlocks (syncer (Mock.start (Mock.syncerAt (Some Mock.id0) 3 []))) = []
  /\ Index (Block_BlockIdentifier Mock.block5)
     <> nextIndex (syncer (Mock.start (Mock.syncerAt (Some Mock.id0) 3 [])))
  /\ let (r, m') :=
       processBlock Mock.accepting Mock.hash (Mock.fresh Mock.block5)
         (Mock.start (Mock.syncerAt (Some Mock.id0) 3 [])) in
     calls m' = [CallBlockAdded (Some Mock.block5)]
     /\ r = Returns None
     /\ pastBlocks (syncer m') = [mkBlockIdentifier 5 "5"]
     /\ nextIndex (syncer m') = 6.
Proof.
  split; [reflexivity|]. split; [discriminate|].
  assert (Hi : Index (Block_BlockIdentifier Mock.block5)
               <> nextIndex (syncer (Mock.start (Mock.syncerAt (Some Mock.id0) 3 []))))
    by discriminate.
  pose proof (processBlock_out_of_order_on_empty_window unit Mock.accepting
                Mock.hash 5 Mock.block5
                (Mock.start (Mock.syncerAt (Some Mock.id0) 3 [])) eq_refl Hi) as H.
  change (Mock.fresh Mock.block5)
    with (Some (mkBlockResult 5 (Some Mock.block5) false)).
  destruct (processBlock Mock.accepting Mock.hash _ _) as [r m'].
  destruct H as (Hcalls & Hr & Hs).
  destruct (Hs eq_refl) as [Hpast Hnext].
  split; [exact Hcalls|]. split; [exact Hr|]. split; [exact Hpast|exact Hnext].
Defined.

Lemma processBlock_cannot_remove_genesis_witness :
  processBlock Mock.accepting Mock.hash (Mock.orphan 1)
    (Mock.start (Mock.syncerAt (Some Mock.id0) 1 [Mock.id0]))
  = (Returns (Some ErrCannotRemoveGenesisBlock),
     Mock.start (Mock.syncerAt (Some Mock.id0) 1 [Mock.id0])).
Proof.
  exact (processBlock_cannot_remove_genesis unit Mock.accepting Mock.hash
           (mkBlockResult 1 None true)
           (Mock.start (Mock.syncerAt (Some Mock.id0) 1 [Mock.id0]))
           Mock.id0 eq_refl eq_refl eq_refl).
Defined.

Lemma processBlock_window_bounded_witness :
  Z.of_nat (List.length (pastBlocks (syncer Mock.fullWindow))) = 20
  /\ Z.of_nat
       (List.length
          (pastBlocks
             (syncer
                (snd (processBlock Mock.accepting Mock.hash
                        (Mock.fresh (Mock.blockAt 20)) Mock.fullWindow)))))
     <= PastBlockSize.
Proof.
  split; [reflexivity|].
  apply (processBlock_window_bounded unit Mock.accepting Mock.hash
           (Mock.fresh (Mock.blockAt 20)) Mock.fullWindow).
  apply Z.leb_le. reflexivity.
Defined.

Example full_window_drops_its_head :
  pastBlocks
    (syncer (snd (processBlock Mock.accepting Mock.hash
                    (Mock.fresh (Mock.blockAt 20)) Mock.fullWindow)))
  = tl (Mock.chain 20) ++ [Mock.ident 20].
Proof. vm_compute. reflexivity. Qed.

Lemma processBlock_error_atomic_witness :
  nextIndex
    (syncer (snd (processBlock Mock.failing Mock.hash (Mock.fresh Mock.block1a)
                    (Mock.start (Mock.syncerAt (Some Mock.id0) 1 [Mock.id0])))))
  = 1
  /\ pastBlocks
       (syncer (snd (processBlock Mock.failing Mock.hash (Mock.fresh Mock.block1a)
                       (Mock.start (Mock.syncerAt (Some Mock.id0) 1 [Mock.id0])))))
     = [Mock.id0].
Proof.
  exact (processBlock_error_atomic unit Mock.failing Mock.hash
           (Mock.fresh Mock.block1a)
           (Mock.start (Mock.syncerAt (Some Mock.id0) 1 [Mock.id0]))
           (External "handler failed") eq_refl).
Defined.

Lemma orphan_head_on_empty_window_adds_nil :
  pastBlocks (syncer (Mock.start (Mock.syncerAt (Some Mock.id0) 0 []))) = []
  /\ let (r, m') :=
       processBlock Mock.accepting Mock.hash (Mock.orphan 0)
         (Mock.start (Mock.syncerAt (Some Mock.id0) 0 [])) in
     calls m' = [CallBlockAdded None]
     /\ r = Panic "nil pointer dereference"
     /\ syncer m' = Mock.syncerAt (Some Mock.id0) 0 [].
Proof.
  split; [reflexivity|].
  pose proof (processBlock_orphan_on_empty_window unit Mock.accepting Mock.hash 0
                (Mock.start (Mock.syncerAt (Some Mock.id0) 0 [])) eq_refl) as H.
  change (Mock.orphan 0) with (Some (mkBlockResult 0 None true)).
  assert (Hs : syncer (snd (processBlock Mock.accepting Mock.hash
                              (Some (mkBlockResult 0 None true))
                              (Mock.start (Mock.syncerAt (Some Mock.id0) 0 []))))
               = Mock.syncerAt (Some Mock.id0) 0 []) by reflexivity.
  destruct (processBlock Mock.accepting Mock.hash _ _) as [r m'].
  destruct H as [Hcalls Hpanic].
  split; [exact Hcalls|]. split; [apply Hpanic; reflexivity|exact Hs].
Defined.

Lemma pastBlocks_stays_nonempty_witness :
  unwinds Mock.hash (syncer (Mock.start (Mock.syncerAt (Some Mock.id0) 0 [])))
    (OpProcessBlock (Mock.fresh Mock.block0)) = false
  /\ addsBlock Mock.accepting Mock.hash (OpProcessBlock (Mock.fresh Mock.block0))
       (Mock.start (Mock.syncerAt (Some Mock.id0) 0 []))
  /\ pastBlocks
       (syncer
          (perform Mock.accepting (Mock.helperAt 1300) Mock.hash
             (OpProcessBlock (Mock.fresh Mock.block0))
             (Mock.start (Mock.syncerAt (Some Mock.id0) 0 []))))
     <> [].
Proof.
  assert (Hadds : addsBlock Mock.accepting Mock.hash
                    (OpProcessBlock (Mock.fresh Mock.block0))
                    (Mock.start (Mock.syncerAt (Some Mock.id0) 0 []))).
  { split; [discriminate|reflexivity]. }
  split; [reflexivity|]. split; [exact Hadds|].
  apply (pastBlocks_stays_nonempty unit Mock.accepting (Mock.helperAt 1300)
           Mock.hash (OpProcessBlock (Mock.fresh Mock.block0))
           (Mock.start (Mock.syncerAt (Some Mock.id0) 0 []))).
  - reflexivity.
  - right. exact Hadds.
Defined.

(** P2 does not hold in the state [Sync] reaches first when it is given a
    start index: a new syncer after [setStart 100] has [nextIndex] 100, above
    the genesis index 0, and an empty [pastBlocks]. *)
Lemma P2_broken_by_setStart :
  setStart (Mock.helperAt 1300) 100 (Mock.start (New []))
  = (Returns None,
     mkMachine (Mock.syncerAt (Some (Mock.ident 0)) 100 []) tt [CallNetworkStatus])
  /\ genesisBlock (Mock.syncerAt (Some (Mock.ident 0)) 100 []) = Some (Mock.ident 0)
  /\ nextIndex (Mock.syncerAt (Some (Mock.ident 0)) 100 []) > Index (Mock.ident 0)
  /\ pastBlocks (Mock.syncerAt (Some (Mock.ident 0)) 100 []) = []
  /\ ~ P2 (Mock.syncerAt (Some (Mock.ident 0)) 100 []).
Proof.
  repeat split; try reflexivity.
  intros H. apply (H (Mock.ident 0)); reflexivity.
Qed.

(** The same after an omitted block at the genesis index. *)
Example P2_broken_by_omitted_block :
  processBlock Mock.accepting Mock.hash (Mock.omitted 0)
    (Mock.start (Mock.syncerAt (Some Mock.id0) 0 []))
  = (Returns None, Mock.start (Mock.syncerAt (Some Mock.id0) 1 [])).
Proof. reflexivity. Qed.

Lemma nextSyncableRange_halts_witness :
  let m := Mock.start (Mock.syncerAt (Some (Mock.ident 0)) 1201 [Mock.ident 1200]) in
  NetworkStatus (Mock.helperAt 1300) (world m) = (inl (Mock.status 1300), tt)
  /\ effectiveEnd 1200 1300 = 1200
  /\ fst (nextSyncableRange (Mock.helperAt 1300) Mock.texts 1200 m)
     = Returns (-1, true, None)
  /\ fst (Sync_turn (Mock.helperAt 1300) Mock.texts 1200 m) = Returns Finished.
Proof.
  cbv zeta.
  pose proof (nextSyncableRange_halts unit (Mock.helperAt 1300) Mock.texts 1200
                (Mock.start (Mock.syncerAt (Some (Mock.ident 0)) 1201
                               [Mock.ident 1200]))
                (Mock.status 1300) tt eq_refl eq_refl) as H.
  cbv zeta in H. destruct H as (_ & Hend & _ & Hhalt & _).
  split; [reflexivity|]. split; [apply Hend; [discriminate|apply Z.leb_le; reflexivity]|].
  split; [reflexivity|].
  apply Hhalt; [reflexivity|]. split; [discriminate|reflexivity].
Defined.

(** Following the tip ([endIndex] = -1), a syncer that is past the tip
    sleeps; behind the tip it syncs up to the tip. *)
Example Sync_turn_follows_tip :
  fst (Sync_turn (Mock.helperAt 1300) Mock.texts (-1)
         (Mock.start (Mock.syncerAt (Some (Mock.ident 0)) 1301 [])))
  = Returns SleepAndRepeat
  /\ fst (Sync_turn (Mock.helperAt 1300) Mock.texts (-1)
            (Mock.start (Mock.syncerAt (Some (Mock.ident 0)) 201 [])))
     = Returns (SyncRange 1300).
Proof. split; reflexivity. Qed.


Example floor_of_the_quotient :
  floor (float64_of_int (cacheSize Mock.pressed) / paddedMax Mock.pressed)
  = Some 209.
Proof. reflexivity. Qed.

(** ** The processor *)

Section ProcessorFacts.

Variable W : Type.
Variable handler : Handler W.
Variable blocks : BlockHelper W.
Variable Hash : option BlockIdentifier -> string.
Variable sentinelText : error -> string.
Variable ErrFetchBlockReorgFailed : error.
Variable ErrBlockProcessFailed : error.

Implicit Types (p : Pipeline W) (c : Cache).

Local Notation "'loop'" :=
  (processBlocks_loop handler blocks Hash sentinelText
     ErrFetchBlockReorgFailed ErrBlockProcessFailed).

(** X1.  Every result [fetchBlockResult] builds carries the index asked for and
    is a block (possibly nil, for an omitted block) or an orphan head,
    never both; the node is asked once, an error that is or wraps
    [ErrOrphanHead] becomes an orphan head and no error, and any other error
    is returned as it is, without a result.  The syncer, the log of handler
    calls and the cache are not touched. *)
Theorem fetchBlockResult_discipline (i : Z) p :
  let answer := fst (Helper_Block blocks i (world (machine p))) in
  let result := fst (fetchBlockResult blocks i p) in
  let p' := snd (fetchBlockResult blocks i p) in
  fetched p' = fetched p ++ [i]
  /\ syncer (machine p') = syncer (machine p)
  /\ calls (machine p') = calls (machine p)
  /\ cache p' = cache p
  /\ match snd answer with
     | None => result = (Some (mkBlockResult i (fst answer) false), None)
     | Some e =>
         if errors_Is e ErrOrphanHead
         then result = (Some (mkBlockResult i None true), None)
         else result = (None, Some e)
     end
  /\ (forall br, fst result = Some br ->
                 index br = i /\ (orphanHead br = true -> block br = None)).
Proof.
  unfold fetchBlockResult.
  destruct (Helper_Block blocks i (world (machine p))) as [[b [e|]] w']; simpl.
  - destruct (errors_Is e ErrOrphanHead); simpl;
      repeat (split; [reflexivity|]); intros br; [|discriminate].
    intros [= <-]. split; reflexivity.
  - repeat (split; [reflexivity|]). intros br [= <-].
    split; [reflexivity|discriminate].
Qed.

Lemma fetchBlockResult_syncer (i : Z) p :
  syncer (machine (snd (fetchBlockResult blocks i p))) = syncer (machine p)
  /\ cache (snd (fetchBlockResult blocks i p)) = cache p
  /\ calls (machine (snd (fetchBlockResult blocks i p))) = calls (machine p)
  /\ fetched (snd (fetchBlockResult blocks i p)) = fetched p ++ [i].
Proof.
  unfold fetchBlockResult.
  destruct (Helper_Block blocks i (world (machine p))) as [[b [e|]] w']; simpl;
    [destruct (errors_Is e ErrOrphanHead)|]; repeat split.
Qed.

(** What [obtain] can do to the pipeline: nothing, take the entry for
    [nextIndex] out of the cache, or ask the node for [nextIndex]. *)
Lemma obtain_cases (reorgStart : Z) p :
  let next := nextIndex (syncer (machine p)) in
  (obtain blocks reorgStart p = Wait
   /\ ZMap.find next (cache p) = None /\ reorgStart < next)
  \/ (exists br,
         ZMap.find next (cache p) = Some br
         /\ obtain blocks reorgStart p
            = Got br (mkPipeline (machine p) (ZMap.remove next (cache p))
                        (fetched p)))
  \/ (ZMap.find next (cache p) = None /\ next <= reorgStart
      /\ ((exists br,
              fst (fetchBlockResult blocks next p) = (br, None)
              /\ obtain blocks reorgStart p
                 = Got br (snd (fetchBlockResult blocks next p)))
          \/ (exists br e,
                 fst (fetchBlockResult blocks next p) = (br, Some e)
                 /\ obtain blocks reorgStart p
                    = FetchFailed e (snd (fetchBlockResult blocks next p))))).
Proof.
  unfold obtain. cbv zeta.
  destruct (ZMap.find (nextIndex (syncer (machine p))) (cache p)) as [br|] eqn:Hf.
  - right; left. exists br. split; reflexivity.
  - destruct (reorgStart <? nextIndex (syncer (machine p))) eqn:Hlt.
    + left. apply Z.ltb_lt in Hlt. repeat split; assumption.
    + right; right. apply Z.ltb_ge in Hlt.
      split; [reflexivity|]. split; [exact Hlt|].
      destruct (fetchBlockResult blocks (nextIndex (syncer (machine p))) p)
        as [[br [e|]] p1]; simpl.
      * right. exists br, e. split; reflexivity.
      * left. exists br. split; reflexivity.
Qed.

(** One turn of the loop. *)
Lemma loop_turn (turns : nat) (endIndex reorgStart : Z) p :
  loop (S turns) endIndex reorgStart p
  = if nextIndex (syncer (machine p)) <=? endIndex then
      match obtain blocks reorgStart p with
      | Wait => Some (Returns None, p)
      | FetchFailed e p1 =>
          Some (Returns
                  (Some (Errorf ErrFetchBlockReorgFailed
                           (": " ++ Error sentinelText e)%string)),
                p1)
      | Got br p1 =>
          match processBlock handler Hash br (machine p1) with
          | (Returns (Some e), m') =>
              Some (Returns
                      (Some (Errorf ErrBlockProcessFailed
                               (": " ++ Error sentinelText e)%string)),
                    with_machine m' p1)
          | (Panic reason, m') => Some (Panic reason, with_machine m' p1)
          | (Returns None, m') =>
              loop turns endIndex
                (if (nextIndex (syncer m') <? nextIndex (syncer (machine p1)))
                    && (reorgStart =? -1)
                 then nextIndex (syncer (machine p1)) else reorgStart)
                (with_machine m' p1)
          end
      end
    else Some (Returns None, p).
Proof. reflexivity. Qed.

(** A property of the pipeline that taking an entry out of the cache, asking
    the node and [processBlock] each keep is kept by the loop. *)
Lemma loop_keeps (Inv : Pipeline W -> Prop) :
  (forall p, Inv p ->
             Inv (mkPipeline (machine p)
                    (ZMap.remove (nextIndex (syncer (machine p))) (cache p))
                    (fetched p))) ->
  (forall p, Inv p ->
             Inv (snd (fetchBlockResult blocks (nextIndex (syncer (machine p))) p))) ->
  (forall p br, Inv p ->
                Inv (with_machine (snd (processBlock handler Hash br (machine p))) p)) ->
  forall (turns : nat) (endIndex reorgStart : Z) p r p',
    Inv p -> loop turns endIndex reorgStart p = Some (r, p') -> Inv p'.
Proof.
  intros Htake Hfetch Hprocess.
  induction turns as [|turns IH]; intros endIndex reorgStart p r p' Hinv;
    [discriminate|].
  rewrite loop_turn.
  destruct (nextIndex (syncer (machine p)) <=? endIndex);
    [|intros [= _ <-]; exact Hinv].
  assert (Hgot : forall br p1,
             Inv p1 ->
             match processBlock handler Hash br (machine p1) with
             | (Returns (Some e), m') =>
                 Some (Returns
                         (Some (Errorf ErrBlockProcessFailed
                                  (": " ++ Error sentinelText e)%string)),
                       with_machine m' p1)
             | (Panic reason, m') => Some (Panic reason, with_machine m' p1)
             | (Returns None, m') =>
                 loop turns endIndex
                   (if (nextIndex (syncer m') <? nextIndex (syncer (machine p1)))
                       && (reorgStart =? -1)
                    then nextIndex (syncer (machine p1)) else reorgStart)
                   (with_machine m' p1)
             end = Some (r, p') -> Inv p').
  { intros br p1 Hinv1. pose proof (Hprocess p1 br Hinv1) as Hnext.
    destruct (processBlock handler Hash br (machine p1)) as [[[e|]|reason] m'];
      simpl in Hnext.
    - intros [= _ <-]. exact Hnext.
    - apply IH. exact Hnext.
    - intros [= _ <-]. exact Hnext. }
  destruct (obtain_cases reorgStart p)
    as [(-> & _ & _)|[(br & _ & ->)|(_ & _ & [(br & _ & ->)|(br & e & _ & ->)])]].
  - intros [= _ <-]. exact Hinv.
  - apply Hgot, Htake, Hinv.
  - apply Hgot, Hfetch, Hinv.
  - intros [= _ <-]. apply Hfetch, Hinv.
Qed.

Lemma errors_Is_refl (e : error) : errors_Is e e = true.
Proof.
  destruct e; unfold errors_Is;
    match goal with
    | |- context [error_eq_dec ?a ?b] => destruct (error_eq_dec a b)
    end; congruence.
Qed.

Lemma errors_Is_Errorf (e : error) (text : string) :
  errors_Is (Errorf e text) e = true.
Proof.
  cbn [errors_Is]. destruct (error_eq_dec (Errorf e text) e); [reflexivity|].
  apply errors_Is_refl.
Qed.

(** [processBlock] only adds to the log of handler calls. *)
Lemma processBlock_log_grows (r : option blockResult) (m : Machine W) :
  exists more,
    calls (snd (processBlock handler Hash r m)) = calls m ++ more.
Proof.
  destruct r as [br|]; [|exists []; symmetry; apply app_nil_r].
  destruct (omittedResult br) eqn:Ho.
  { rewrite (processBlock_omitted W handler Hash br m Ho).
    exists []. symmetry. apply app_nil_r. }
  destruct (checkRemove_answers W Hash br m)
    as [[reason Hc]|[(sr & lb & e & Hc)|[[lb Hc]|(t & Ht & Hc)]]].
  - rewrite (processBlock_check_panics W handler Hash br m reason Ho Hc).
    exists []. symmetry. apply app_nil_r.
  - rewrite (processBlock_refused W handler Hash br m sr lb e Ho Hc).
    exists []. symmetry. apply app_nil_r.
  - rewrite (processBlock_adds W handler Hash br m lb Ho Hc).
    exists [CallBlockAdded (block br)].
    destruct (BlockAdded handler (block br) (world m)) as [[e|] w']; simpl;
      [reflexivity|].
    destruct (block br); reflexivity.
  - rewrite (processBlock_removes W handler Hash br m t Ho Hc).
    exists [CallBlockRemoved (Some t)].
    destruct (BlockRemoved handler (Some t) (world m)) as [[e|] w']; simpl;
      [reflexivity|].
    destruct (pastBlocks (syncer m)); reflexivity.
Qed.

(** The loop puts nothing into the cache and only adds to the two logs. *)
Lemma loop_only_consumes (turns : nat) (endIndex reorgStart : Z) p r p' :
  loop turns endIndex reorgStart p = Some (r, p') ->
  within (cache p') (cache p)
  /\ (exists asked, fetched p' = fetched p ++ asked)
  /\ (exists called, calls (machine p') = calls (machine p) ++ called).
Proof.
  apply (loop_keeps
           (fun q => within (cache q) (cache p)
                     /\ (exists asked, fetched q = fetched p ++ asked)
                     /\ (exists called,
                            calls (machine q) = calls (machine p) ++ called))).
  - intros q (Hc & Hf & Hl). split; [|split; assumption].
    intros k v. simpl.
    destruct (Z.eq_dec (nextIndex (syncer (machine q))) k) as [He|Hne].
    + rewrite ZMapFacts.remove_eq_o by exact He. discriminate.
    + rewrite ZMapFacts.remove_neq_o by exact Hne. apply Hc.
  - intros q (Hc & (asked & Hf) & Hl).
    destruct (fetchBlockResult_syncer (nextIndex (syncer (machine q))) q)
      as (_ & -> & -> & ->).
    split; [exact Hc|]. split; [|exact Hl].
    rewrite Hf, <- app_assoc. eauto.
  - intros q br (Hc & Hf & (called & Hl)). simpl.
    split; [exact Hc|]. split; [exact Hf|].
    destruct (processBlock_log_grows br (machine q)) as [more ->].
    rewrite Hl, <- app_assoc. eauto.
  - split; [intros k v H; exact H|].
    split; exists []; symmetry; apply app_nil_r.
Qed.

(** X4.  Whatever comes back from [processBlocks], it put nothing into the cache
    (every entry left was there before, under the same index), and it only
    added to the list of indices asked of the node and to the log of handler
    calls. *)
Theorem processBlocks_only_consumes (turns : nat) (endIndex : Z) p r p' :
  processBlocks handler blocks Hash sentinelText ErrFetchBlockReorgFailed
    ErrBlockProcessFailed turns endIndex p = Some (r, p') ->
  within (cache p') (cache p)
  /\ (exists asked, fetched p' = fetched p ++ asked)
  /\ (exists called, calls (machine p') = calls (machine p) ++ called).
Proof. apply loop_only_consumes. Qed.

(** The loop ends without an error only past the end of the range or at an
    index the cache does not hold; an error it returns wraps
    [ErrBlockProcessFailed] or [ErrFetchBlockReorgFailed]. *)
Lemma loop_result (turns : nat) (endIndex reorgStart : Z) p r p' :
  loop turns endIndex reorgStart p = Some (r, p') ->
  match r with
  | Returns None =>
      endIndex < nextIndex (syncer (machine p'))
      \/ ZMap.find (nextIndex (syncer (machine p'))) (cache p') = None
  | Returns (Some e) =>
      errors_Is e ErrBlockProcessFailed = true
      \/ errors_Is e ErrFetchBlockReorgFailed = true
  | Panic _ => True
  end.
Proof.
  revert reorgStart p. induction turns as [|turns IH]; intros reorgStart p;
    [discriminate|].
  rewrite loop_turn.
  destruct (nextIndex (syncer (machine p)) <=? endIndex) eqn:Hle.
  2:{ intros [= <- <-]. left. apply Z.leb_gt. exact Hle. }
  assert (Hgot : forall br p1,
             match processBlock handler Hash br (machine p1) with
             | (Returns (Some e), m') =>
                 Some (Returns
                         (Some (Errorf ErrBlockProcessFailed
                                  (": " ++ Error sentinelText e)%string)),
                       with_machine m' p1)
             | (Panic reason, m') => Some (Panic reason, with_machine m' p1)
             | (Returns None, m') =>
                 loop turns endIndex
                   (if (nextIndex (syncer m') <? nextIndex (syncer (machine p1)))
                       && (reorgStart =? -1)
                    then nextIndex (syncer (machine p1)) else reorgStart)
                   (with_machine m' p1)
             end = Some (r, p') ->
             match r with
             | Returns None =>
                 endIndex < nextIndex (syncer (machine p'))
                 \/ ZMap.find (nextIndex (syncer (machine p'))) (cache p') = None
             | Returns (Some e) =>
                 errors_Is e ErrBlockProcessFailed = true
                 \/ errors_Is e ErrFetchBlockReorgFailed = true
             | Panic _ => True
             end).
  { intros br p1.
    destruct (processBlock handler Hash br (machine p1)) as [[[e|]|reason] m'].
    - intros [= <- _]. left. apply errors_Is_Errorf.
    - apply IH.
    - intros [= <- _]. exact I. }
  destruct (obtain_cases reorgStart p)
    as [(-> & Hf & _)|[(br & _ & ->)|(_ & _ & [(br & _ & ->)|(br & e & _ & ->)])]].
  - intros [= <- <-]. right. exact Hf.
  - apply Hgot.
  - apply Hgot.
  - intros [= <- _]. right. apply errors_Is_Errorf.
Qed.

(** X3.  What a caller of [processBlocks] gets: no error only when the range is
    done or the result for [nextIndex] has not arrived (the cache does not
    hold it); otherwise an error that wraps [ErrBlockProcessFailed] or
    [ErrFetchBlockReorgFailed]. *)
Theorem processBlocks_result (turns : nat) (endIndex : Z) p r p' :
  processBlocks handler blocks Hash sentinelText ErrFetchBlockReorgFailed
    ErrBlockProcessFailed turns endIndex p = Some (r, p') ->
  match r with
  | Returns None =>
      endIndex < nextIndex (syncer (machine p'))
      \/ ZMap.find (nextIndex (syncer (machine p'))) (cache p') = None
  | Returns (Some e) =>
      errors_Is e ErrBlockProcessFailed = true
      \/ errors_Is e ErrFetchBlockReorgFailed = true
  | Panic _ => True
  end.
Proof. apply loop_result. Qed.

Lemma slice_last_cons {A : Type} (a : A) (l : list A) :
  l <> [] -> slice_last (a :: l) = slice_last l.
Proof.
  destruct l as [|x l _] using rev_ind; [contradiction|]. intros _.
  rewrite app_comm_cons, !slice_last_app. reflexivity.
Qed.

(** Taking an earlier index out of the cache leaves a run deliverable. *)
Lemma deliverable_remove c (tail : option BlockIdentifier) (n k : Z)
    (bs : list Block) :
  k < n -> deliverable Hash c tail n bs ->
  deliverable Hash (ZMap.remove k c) tail n bs.
Proof.
  revert tail n. induction bs as [|b rest IH]; intros tail n Hlt; simpl;
    [trivial|].
  intros ((i & Hf) & Hi & Hp & Hrest).
  split; [exists i; rewrite ZMapFacts.remove_neq_o by lia; exact Hf|].
  split; [exact Hi|]. split; [exact Hp|]. apply IH; [lia|exact Hrest].
Qed.

(** A fresh result whose block has the expected index and connects to the
    tail (or meets an empty window) is appended when the handler accepts
    it. *)
Lemma processBlock_connected (i : Z) (b : Block) (m : Machine W) :
  Index (Block_BlockIdentifier b) = nextIndex (syncer m) ->
  match slice_last (pastBlocks (syncer m)) with
  | None => True
  | Some t =>
      String.eqb (Hash (Some (Block_ParentBlockIdentifier b))) (Hash (Some t))
      = true
  end ->
  fst (BlockAdded handler (Some b) (world m)) = None ->
  processBlock handler Hash (Some (mkBlockResult i (Some b) false)) m
  = (Returns None,
     mkMachine
       (set_nextIndex (wrap64 (Index (Block_BlockIdentifier b) + 1))
          (set_pastBlocks
             (trimmed (pastBlocks (syncer m) ++ [Block_BlockIdentifier b]))
             (syncer m)))
       (snd (BlockAdded handler (Some b) (world m)))
       (calls m ++ [CallBlockAdded (Some b)])).
Proof.
  intros Hi Hconn Hok.
  assert (Hc : exists lb, checkRemove Hash (mkBlockResult i (Some b) false) m
                          = (Returns (false, lb, None), m)).
  { destruct (slice_last (pastBlocks (syncer m))) as [t|] eqn:Ht.
    - exists (Some t). apply checkRemove_connects; assumption.
    - exists None. apply checkRemove_empty, slice_last_nil_inv, Ht. }
  destruct Hc as [lb Hc].
  rewrite (processBlock_adds W handler Hash (mkBlockResult i (Some b) false) m lb
             eq_refl Hc).
  simpl. destruct (BlockAdded handler (Some b) (world m)) as [[e|] w'];
    simpl in *; [discriminate|reflexivity].
Qed.

Lemma loop_delivers (bs : list Block) :
  (forall b w, fst (BlockAdded handler b w) = None) ->
  forall p (turns : nat) (endIndex : Z),
    let n := nextIndex (syncer (machine p)) in
    let len := Z.of_nat (List.length bs) in
    deliverable Hash (cache p) (slice_last (pastBlocks (syncer (machine p)))) n bs ->
    int64_min <= n -> n + len <= int64_max ->
    n + len - 1 <= endIndex ->
    endIndex < n + len
    \/ (ZMap.find (n + len) (cache p) = None /\ -1 < n + len) ->
    (List.length bs < turns)%nat ->
    exists p',
      loop turns endIndex (-1) p = Some (Returns None, p')
      /\ calls (machine p')
         = calls (machine p) ++ map (fun b => CallBlockAdded (Some b)) bs
      /\ nextIndex (syncer (machine p')) = n + len
      /\ fetched p' = fetched p
      /\ (forall k, ZMap.find k (cache p')
                    = if (n <=? k) && (k <? n + len) then None
                      else ZMap.find k (cache p))
      /\ (bs = [] -> p' = p)
      /\ (forall b, slice_last bs = Some b ->
                    slice_last (pastBlocks (syncer (machine p')))
                    = Some (Block_BlockIdentifier b)).
Proof.
  intros Haccept. induction bs as [|b rest IH];
    intros p turns endIndex n len Hd Hlo Hhi Hend Hstop Hturns.
  - destruct turns as [|turns]; [inversion Hturns|].
    exists p. rewrite loop_turn. subst len. simpl in *.
    rewrite Z.add_0_r in *. fold n.
    split.
    { destruct (n <=? endIndex) eqn:Hle; [|reflexivity].
      apply Z.leb_le in Hle. destruct Hstop as [Hgt|[Hnone Hpos]]; [lia|].
      unfold obtain. fold n. rewrite Hnone.
      apply Z.ltb_lt in Hpos. rewrite Hpos. reflexivity. }
    split; [symmetry; apply app_nil_r|]. split; [reflexivity|].
    split; [reflexivity|]. split.
    { intros k. destruct (n <=? k) eqn:H1, (k <? n) eqn:H2; simpl;
        try reflexivity.
      apply Z.leb_le in H1. apply Z.ltb_lt in H2. lia. }
    split; [reflexivity|discriminate].
  - destruct turns as [|turns]; [inversion Hturns|].
    simpl in Hd. destruct Hd as ((i & Hfind) & Hidx & Hconn & Hrest).
    assert (Hlen : len = Z.of_nat (List.length rest) + 1).
    { subst len. simpl List.length. lia. }
    rewrite loop_turn. fold n.
    assert (Hle : (n <=? endIndex) = true) by (apply Z.leb_le; lia).
    rewrite Hle. unfold obtain. fold n. rewrite Hfind.
    cbn [machine].
    rewrite (processBlock_connected i b (machine p) Hidx Hconn (Haccept _ _)).
    cbn [with_machine cache fetched syncer nextIndex set_nextIndex].
    rewrite Hidx. fold n.
    assert (Hwrap : wrap64 (n + 1) = n + 1).
    { apply wrap64_in_range. unfold in_int64.
      apply andb_true_iff. rewrite !Z.leb_le. lia. }
    rewrite Hwrap.
    assert (Hnot : (n + 1 <? n) = false) by (apply Z.ltb_ge; lia).
    rewrite Hnot. cbn [andb].
    set (m' := mkMachine _ _ _).
    set (p2 := mkPipeline m' (ZMap.remove n (cache p)) (fetched p)).
    assert (Hn2 : nextIndex (syncer (machine p2)) = n + 1) by reflexivity.
    destruct (IH p2 turns endIndex) as (p' & Hrun & Hcalls & Hnext & Hf & Hc & Hnil & Hlast).
    + rewrite Hn2. cbn [p2 machine m' syncer pastBlocks set_nextIndex set_pastBlocks cache].
      rewrite trimmed_last. apply deliverable_remove; [lia|exact Hrest].
    + rewrite Hn2. lia.
    + rewrite Hn2. lia.
    + rewrite Hn2. lia.
    + rewrite Hn2. cbn [p2 cache].
      replace (n + 1 + Z.of_nat (List.length rest)) with (n + len) by lia.
      destruct Hstop as [Hgt|[Hnone Hpos]]; [left; exact Hgt|right].
      split; [|exact Hpos].
      rewrite ZMapFacts.remove_neq_o by lia. exact Hnone.
    + simpl in Hturns. lia.
    + exists p'. split; [exact Hrun|].
      rewrite Hn2 in *.
      split.
      { rewrite Hcalls. cbn [p2 machine m' calls map].
        rewrite <- app_assoc. reflexivity. }
      split; [rewrite Hnext; lia|].
      split; [rewrite Hf; reflexivity|].
      split.
      { intros k. rewrite Hc. cbn [p2 cache].
        replace (n + 1 + Z.of_nat (List.length rest)) with (n + len) by lia.
        destruct (Z.eq_dec n k) as [<-|Hne].
        - rewrite ZMapFacts.remove_eq_o by reflexivity.
          assert (H1 : (n <=? n) = true) by (apply Z.leb_le; lia).
          assert (H2 : (n <? n + len) = true) by (apply Z.ltb_lt; lia).
          rewrite H1, H2. cbn [andb]. destruct (n + 1 <=? n); reflexivity.
        - rewrite ZMapFacts.remove_neq_o by exact Hne.
          assert (H1 : (n + 1 <=? k) = (n <=? k)).
          { destruct (Z.leb_spec (n + 1) k), (Z.leb_spec n k); try reflexivity; lia. }
          rewrite H1. reflexivity. }
      split; [discriminate|].
      intros bl Hbl. destruct rest as [|b2 rest2].
      * rewrite (Hnil eq_refl). unfold slice_last in Hbl. simpl in Hbl.
        injection Hbl as <-. cbn [p2 machine m' syncer pastBlocks set_nextIndex set_pastBlocks].
        apply trimmed_last.
      * apply Hlast. rewrite <- Hbl. symmetry. apply slice_last_cons. discriminate.
Qed.

(** X2.  In-order delivery.  When the cache holds, under consecutive indices from
    [nextIndex], fresh results whose blocks carry those indices and each
    connect to the one before (the first to the tail of [pastBlocks], if
    any), the result after them is not there yet or lies past [endIndex],
    and the handler accepts, [processBlocks] hands exactly these blocks to
    [Handler.BlockAdded], in ascending order, asks the node for nothing,
    takes exactly their entries out of the cache, and leaves [nextIndex]
    after the last of them, whose identifier is the new tail. *)
Theorem processBlocks_delivers_in_order (bs : list Block) p (turns : nat)
    (endIndex : Z) :
  let n := nextIndex (syncer (machine p)) in
  let len := Z.of_nat (List.length bs) in
  (forall b w, fst (BlockAdded handler b w) = None) ->
  deliverable Hash (cache p) (slice_last (pastBlocks (syncer (machine p)))) n bs ->
  int64_min <= n -> n + len <= int64_max ->
  n + len - 1 <= endIndex ->
  endIndex < n + len
  \/ (ZMap.find (n + len) (cache p) = None /\ -1 < n + len) ->
  (List.length bs < turns)%nat ->
  exists p',
    processBlocks handler blocks Hash sentinelText ErrFetchBlockReorgFailed
      ErrBlockProcessFailed turns endIndex p = Some (Returns None, p')
    /\ calls (machine p')
       = calls (machine p) ++ map (fun b => CallBlockAdded (Some b)) bs
    /\ nextIndex (syncer (machine p')) = n + len
    /\ fetched p' = fetched p
    /\ (forall k, ZMap.find k (cache p')
                  = if (n <=? k) && (k <? n + len) then None
                    else ZMap.find k (cache p))
    /\ (forall b, slice_last bs = Some b ->
                  slice_last (pastBlocks (syncer (machine p')))
                  = Some (Block_BlockIdentifier b)).
Proof.
  intros n len Haccept Hd Hlo Hhi Hend Hstop Hturns.
  destruct (loop_delivers bs Haccept p turns endIndex Hd Hlo Hhi Hend Hstop Hturns)
    as (p' & Hrun & Hcalls & Hnext & Hf & Hc & _ & Hlast).
  exists p'. repeat split; assumption.
Qed.

End ProcessorFacts.

(** ** The processor, call by call *)

Section ProcessorOrderFacts.

Variable W : Type.
Variable handler : Handler W.
Variable blocks : BlockHelper W.
Variable Hash : option BlockIdentifier -> string.
Variable sentinelText : error -> string.
Variable ErrFetchBlockReorgFailed : error.
Variable ErrBlockProcessFailed : error.

Implicit Types (p : Pipeline (Traced W)) (m : Machine (Traced W)).

Local Notation "'tracedLoop'" :=
  (processBlocks_loop (traceHandler handler) (traceBlocks blocks) Hash
     sentinelText ErrFetchBlockReorgFailed ErrBlockProcessFailed).

(** [processBlock] only adds to the events. *)
Lemma processBlock_trace_grows (r : option blockResult) m :
  exists more,
    snd (world (snd (processBlock (traceHandler handler) Hash r m)))
    = snd (world m) ++ more.
Proof.
  destruct r as [br|]; [|exists []; symmetry; apply app_nil_r].
  destruct (omittedResult br) eqn:Ho.
  { rewrite (processBlock_omitted _ (traceHandler handler) Hash br m Ho).
    exists []. symmetry. apply app_nil_r. }
  destruct (checkRemove_answers _ Hash br m)
    as [[reason Hc]|[(sr & lb & e & Hc)|[[lb Hc]|(t & Ht & Hc)]]].
  - rewrite (processBlock_check_panics _ (traceHandler handler) Hash br m reason Ho Hc).
    exists []. symmetry. apply app_nil_r.
  - rewrite (processBlock_refused _ (traceHandler handler) Hash br m sr lb e Ho Hc).
    exists []. symmetry. apply app_nil_r.
  - rewrite (processBlock_adds _ (traceHandler handler) Hash br m lb Ho Hc).
    exists [Handled (CallBlockAdded (block br))].
    cbn [traceHandler BlockAdded].
    destruct (BlockAdded handler (block br) (fst (world m))) as [[e|] w'];
      [reflexivity|].
    destruct (block br); reflexivity.
  - rewrite (processBlock_removes _ (traceHandler handler) Hash br m t Ho Hc).
    exists [Handled (CallBlockRemoved (Some t))].
    cbn [traceHandler BlockRemoved].
    destruct (BlockRemoved handler (Some t) (fst (world m))) as [[e|] w'];
      [reflexivity|].
    destruct (pastBlocks (syncer m)); reflexivity.
Qed.

(** A request to the node adds itself to the events. *)
Lemma fetchBlockResult_trace (i : Z) p :
  trace (snd (fetchBlockResult (traceBlocks blocks) i p)) = trace p ++ [Asked i].
Proof.
  unfold fetchBlockResult, trace. cbn [traceBlocks Helper_Block].
  destruct (Helper_Block blocks i (fst (world (machine p)))) as [[b [e|]] w'];
    [destruct (errors_Is e ErrOrphanHead)|]; reflexivity.
Qed.

(** The loop only adds to the events. *)
Lemma tracedLoop_grows (turns : nat) (endIndex reorgStart : Z) p r p' :
  tracedLoop turns endIndex reorgStart p = Some (r, p') ->
  exists later, trace p' = trace p ++ later.
Proof.
  apply (loop_keeps (Traced W) (traceHandler handler) (traceBlocks blocks) Hash
           sentinelText ErrFetchBlockReorgFailed ErrBlockProcessFailed
           (fun q => exists later, trace q = trace p ++ later)).
  - intros q H. exact H.
  - intros q [later H]. rewrite fetchBlockResult_trace, H, <- app_assoc. eauto.
  - intros q br [later H].
    destruct (processBlock_trace_grows br (machine q)) as [more Hmore].
    unfold trace in *. cbn [with_machine machine]. rewrite Hmore, H, <- app_assoc.
    eauto.
  - exists []. symmetry. apply app_nil_r.
Qed.

(** [checkRemove] answers from the syncer alone. *)
Lemma checkRemove_untraced br m x :
  checkRemove Hash br m = (x, m) ->
  checkRemove Hash br (untracedMachine m) = (x, untracedMachine m).
Proof.
  intros H.
  rewrite (surjective_pairing (checkRemove Hash br (untracedMachine m))).
  rewrite checkRemove_reads. f_equal.
  apply (f_equal fst) in H. cbn [fst] in H. rewrite <- H.
  go_run.
  repeat match goal with
         | |- context [if ?c then _ else _] => destruct c
         | |- context [match ?x with _ => _ end] => destruct x
         end; reflexivity.
Qed.

(** Writing the events down changes nothing else: [processBlock] returns the
    same and leaves the same syncer, world and log of handler calls. *)
Lemma processBlock_untraced (r : option blockResult) m :
  processBlock handler Hash r (untracedMachine m)
  = (fst (processBlock (traceHandler handler) Hash r m),
     untracedMachine (snd (processBlock (traceHandler handler) Hash r m))).
Proof.
  destruct r as [br|]; [|reflexivity].
  destruct (omittedResult br) eqn:Ho.
  { rewrite (processBlock_omitted _ (traceHandler handler) Hash br m Ho),
      (processBlock_omitted _ handler Hash br (untracedMachine m) Ho).
    reflexivity. }
  destruct (checkRemove_answers _ Hash br m)
    as [[reason Hc]|[(sr & lb & e & Hc)|[[lb Hc]|(t & Ht & Hc)]]];
    pose proof (checkRemove_untraced br m _ Hc) as Hc'.
  - rewrite (processBlock_check_panics _ (traceHandler handler) Hash br m reason Ho Hc),
      (processBlock_check_panics _ handler Hash br _ reason Ho Hc').
    reflexivity.
  - rewrite (processBlock_refused _ (traceHandler handler) Hash br m sr lb e Ho Hc),
      (processBlock_refused _ handler Hash br _ sr lb e Ho Hc').
    reflexivity.
  - rewrite (processBlock_adds _ (traceHandler handler) Hash br m lb Ho Hc),
      (processBlock_adds _ handler Hash br _ lb Ho Hc').
    cbn [traceHandler BlockAdded untracedMachine world syncer calls].
    destruct (BlockAdded handler (block br) (fst (world m))) as [[e|] w'];
      [reflexivity|].
    destruct (block br); reflexivity.
  - rewrite (processBlock_removes _ (traceHandler handler) Hash br m t Ho Hc),
      (processBlock_removes _ handler Hash br _ t Ho Hc').
    cbn [traceHandler BlockRemoved untracedMachine world syncer calls].
    destruct (BlockRemoved handler (Some t) (fst (world m))) as [[e|] w'];
      [reflexivity|].
    destruct (pastBlocks (syncer m)); reflexivity.
Qed.

Lemma fetchBlockResult_untraced (i : Z) p :
  fetchBlockResult blocks i (untraced p)
  = (fst (fetchBlockResult (traceBlocks blocks) i p),
     untraced (snd (fetchBlockResult (traceBlocks blocks) i p))).
Proof.
  unfold fetchBlockResult.
  cbn [traceBlocks Helper_Block untraced untracedMachine machine world syncer
       calls cache fetched].
  destruct (Helper_Block blocks i (fst (world (machine p)))) as [[b [e|]] w'];
    [destruct (errors_Is e ErrOrphanHead)|]; reflexivity.
Qed.

Lemma obtain_untraced (reorgStart : Z) p :
  obtain blocks reorgStart (untraced p)
  = match obtain (traceBlocks blocks) reorgStart p with
    | Wait => Wait
    | Got br q => Got br (untraced q)
    | FetchFailed e q => FetchFailed e (untraced q)
    end.
Proof.
  unfold obtain. rewrite fetchBlockResult_untraced.
  cbn [untraced untracedMachine machine syncer cache fetched].
  destruct (ZMap.find (nextIndex (syncer (machine p))) (cache p)) as [br|];
    [reflexivity|].
  destruct (reorgStart <? nextIndex (syncer (machine p))); [reflexivity|].
  destruct (fetchBlockResult (traceBlocks blocks) (nextIndex (syncer (machine p))) p)
    as [[br [e|]] q]; reflexivity.
Qed.

(** The run with the events written down is the run without them: the same
    result, syncer, world, log of handler calls, cache and requests. *)
Lemma processBlocks_loop_untraced (turns : nat) (endIndex reorgStart : Z) p :
  processBlocks_loop handler blocks Hash sentinelText ErrFetchBlockReorgFailed
    ErrBlockProcessFailed turns endIndex reorgStart (untraced p)
  = option_map (fun done => (fst done, untraced (snd done)))
      (tracedLoop turns endIndex reorgStart p).
Proof.
  revert reorgStart p. induction turns as [|turns IH]; intros reorgStart p;
    [reflexivity|].
  rewrite !loop_turn, obtain_untraced.
  change (nextIndex (syncer (machine (untraced p))))
    with (nextIndex (syncer (machine p))).
  destruct (nextIndex (syncer (machine p)) <=? endIndex); [|reflexivity].
  destruct (obtain (traceBlocks blocks) reorgStart p) as [|br q|e q];
    [reflexivity| |reflexivity].
  change (machine (untraced q)) with (untracedMachine (machine q)).
  rewrite processBlock_untraced.
  change (nextIndex (syncer (untracedMachine (machine q))))
    with (nextIndex (syncer (machine q))).
  destruct (processBlock (traceHandler handler) Hash br (machine q))
    as [[[e|]|reason] m']; cbn [fst snd]; [reflexivity| |reflexivity].
  change (nextIndex (syncer (untracedMachine m'))) with (nextIndex (syncer m')).
  apply (IH _ (with_machine m' q)).
Qed.

(** X5.  After an unwind the processor does not wait.  With every call of the
    handler and every request to the node written down in one list as it is
    made: when the result for [nextIndex] triggers an unwind that the handler
    accepts, the removed tail lies below [nextIndex], and the cache holds
    nothing for the tail's index, a call of [processBlocks] that returns has
    first called [Handler.BlockRemoved] on the tail and has asked the node
    for the tail's index right after it, before any other call. *)
Theorem processBlocks_refetches_after_unwind br p (turns : nat) (endIndex : Z)
    (t : BlockIdentifier) r p' :
  let s := syncer (machine p) in
  ZMap.find (nextIndex s) (cache p) = Some (Some br) ->
  nextIndex s <= endIndex ->
  slice_last (pastBlocks s) = Some t ->
  String.eqb (Hash (genesisBlock s)) (Hash (Some t)) = false ->
  unwindTriggered Hash s br = true ->
  fst (BlockRemoved handler (Some t) (fst (world (machine p)))) = None ->
  Index t < nextIndex s ->
  ZMap.find (Index t) (cache p) = None ->
  processBlocks (traceHandler handler) (traceBlocks blocks) Hash sentinelText
    ErrFetchBlockReorgFailed ErrBlockProcessFailed turns endIndex p
  = Some (r, p') ->
  exists later,
    trace p'
    = trace p ++ Handled (CallBlockRemoved (Some t)) :: Asked (Index t) :: later.
Proof.
  intros s Hfind Hend Ht Hg Hu Hok Hbelow Hmiss.
  unfold processBlocks.
  destruct turns as [|turns]; [discriminate|].
  rewrite loop_turn. fold s.
  assert (Hle : (nextIndex s <=? endIndex) = true) by (apply Z.leb_le; exact Hend).
  rewrite Hle. unfold obtain. fold s. rewrite Hfind. cbn [machine].
  assert (Hfresh : omittedResult br = false).
  { unfold unwindTriggered in Hu. unfold omittedResult.
    destruct (block br), (orphanHead br); simpl in *; congruence. }
  assert (Hcheck : checkRemove Hash br (machine p)
                   = (Returns (true, Some t, None), machine p)).
  { rewrite (checkRemove_unwind _ Hash br (machine p) t Ht Hu).
    unfold attemptOrphan. fold s. rewrite Hg. reflexivity. }
  rewrite (processBlock_removes _ (traceHandler handler) Hash br (machine p) t
             Hfresh Hcheck).
  cbn [traceHandler BlockRemoved].
  destruct (BlockRemoved handler (Some t) (fst (world (machine p)))) as [[e|] w'];
    simpl in Hok; [discriminate|]. cbv zeta.
  fold s. destruct (pastBlocks s) as [|x l] eqn:Hp; [discriminate Ht|].
  cbn [with_machine cache fetched syncer nextIndex set_nextIndex].
  assert (Hlt : (Index t <? nextIndex s) = true) by (apply Z.ltb_lt; exact Hbelow).
  rewrite Hlt. cbn [andb Z.eqb Pos.eqb]. unfold with_machine. cbn [cache fetched].
  match goal with
  | |- processBlocks_loop _ _ _ _ _ _ _ _ _ ?q = _ -> _ => set (p1 := q)
  end.
  assert (Htrace1 : trace p1
                    = trace p ++ [Handled (CallBlockRemoved (Some t))])
    by reflexivity.
  destruct turns as [|turns]; [discriminate|].
  rewrite loop_turn.
  assert (Hn1 : nextIndex (syncer (machine p1)) = Index t) by reflexivity.
  rewrite Hn1.
  assert (Hle1 : (Index t <=? endIndex) = true) by (apply Z.leb_le; lia).
  rewrite Hle1. unfold obtain. rewrite Hn1.
  assert (Hmiss1 : ZMap.find (Index t) (cache p1) = None).
  { cbn [p1 cache]. rewrite ZMapFacts.remove_neq_o by lia. exact Hmiss. }
  rewrite Hmiss1.
  assert (Hge : (nextIndex s <? Index t) = false) by (apply Z.ltb_ge; lia).
  rewrite Hge.
  pose proof (fetchBlockResult_trace (Index t) p1) as Hasked.
  rewrite Htrace1, <- app_assoc in Hasked. cbn [app] in Hasked.
  destruct (fetchBlockResult (traceBlocks blocks) (Index t) p1)
    as [[fetchedBr [e|]] p2]; cbn [snd] in Hasked.
  - intros [= _ <-]. exists []. exact Hasked.
  - destruct (processBlock_trace_grows fetchedBr (machine p2)) as [more Hmore].
    destruct (processBlock (traceHandler handler) Hash fetchedBr (machine p2))
      as [[[e|]|reason] m2]; cbn [snd] in Hmore.
    + intros [= _ <-]. exists more. unfold trace in *.
      cbn [with_machine machine]. rewrite Hmore, Hasked, <- app_assoc.
      reflexivity.
    + intros Hrun. apply tracedLoop_grows in Hrun. destruct Hrun as [later Hl].
      exists (more ++ later). rewrite Hl. unfold trace in *.
      cbn [with_machine machine]. rewrite Hmore, Hasked, <- !app_assoc.
      reflexivity.
    + intros [= _ <-]. exists more. unfold trace in *.
      cbn [with_machine machine]. rewrite Hmore, Hasked, <- app_assoc.
      reflexivity.
Qed.

End ProcessorOrderFacts.

(** ** The range driver, further *)

Section DriverMoreFacts.

Variable W : Type.
Variable helper : Helper W.
Variable sentinelText : error -> string.

Implicit Types (m : Machine W).

(** What [nextSyncableRange] returns, by the state of the syncer and the
    answer of the node; it never writes the syncer. *)
Lemma nextSyncableRange_run endIndex m :
  nextSyncableRange helper sentinelText endIndex m
  = if nextIndex (syncer m) =? -1
    then (Returns (-1, false, Some ErrGetCurrentHeadBlockFailed), m)
    else
      let m' := mkMachine (syncer m) (snd (NetworkStatus helper (world m)))
                  (calls m ++ [CallNetworkStatus]) in
      match fst (NetworkStatus helper (world m)) with
      | inr err =>
          (Returns (-1, false,
                    Some (Errorf ErrGetNetworkStatusFailed
                            (": " ++ Error sentinelText err)%string)),
           m')
      | inl ns =>
          if nextIndex (syncer m)
             >? effectiveEnd endIndex (Index (CurrentBlockIdentifier ns))
          then (Returns (-1, true, None), m')
          else (Returns (effectiveEnd endIndex (Index (CurrentBlockIdentifier ns)),
                         false, None),
                m')
      end.
Proof.
  unfold nextSyncableRange, bind, get, ret, invoke, effectiveEnd. simpl.
  destruct (nextIndex (syncer m) =? -1); [reflexivity|].
  destruct (NetworkStatus helper (world m)) as [[ns|err] w']; simpl;
    [|reflexivity].
  destruct (nextIndex (syncer m) >? _); reflexivity.
Qed.

(** What a turn of the loop of [Sync] decides, in the same terms. *)
Lemma Sync_turn_run endIndex m :
  Sync_turn helper sentinelText endIndex m
  = if nextIndex (syncer m) =? -1
    then (Returns
            (Failed (Errorf ErrNextSyncableRangeFailed
                       (": " ++ sentinelText ErrGetCurrentHeadBlockFailed)%string)),
          m)
    else
      let m' := mkMachine (syncer m) (snd (NetworkStatus helper (world m)))
                  (calls m ++ [CallNetworkStatus]) in
      match fst (NetworkStatus helper (world m)) with
      | inr err =>
          (Returns
             (Failed (Errorf ErrNextSyncableRangeFailed
                        (": " ++ (sentinelText ErrGetNetworkStatusFailed
                                  ++ ": " ++ Error sentinelText err))%string)),
           m')
      | inl ns =>
          if nextIndex (syncer m)
             >? effectiveEnd endIndex (Index (CurrentBlockIdentifier ns))
          then (Returns (if (nextIndex (syncer m) >? endIndex)
                            && negb (endIndex =? -1)
                         then Finished else SleepAndRepeat),
                m')
          else (Returns (SyncRange
                           (effectiveEnd endIndex
                              (Index (CurrentBlockIdentifier ns)))),
                m')
      end.
Proof.
  unfold Sync_turn, bind at 1. rewrite nextSyncableRange_run.
  destruct (nextIndex (syncer m) =? -1); [reflexivity|]. cbv zeta.
  destruct (fst (NetworkStatus helper (world m))) as [ns|err]; [|reflexivity].
  destruct (nextIndex (syncer m) >? _); [|reflexivity].
  unfold bind, get, ret. simpl. destruct (_ && _); reflexivity.
Qed.

(** X6.  Every range the loop of [Sync] hands to [syncRange] starts at
    [nextIndex], is not empty, ends at or below the tip the node reported in
    this turn, and ends at or below [endIndex] when the caller gave one (at
    the tip itself when the caller follows the tip); the turn read the
    network status once and wrote nothing to the syncer. *)
Theorem Sync_turn_range endIndex m (rangeEnd : Z) :
  fst (Sync_turn helper sentinelText endIndex m) = Returns (SyncRange rangeEnd) ->
  exists ns,
    fst (NetworkStatus helper (world m)) = inl ns
    /\ nextIndex (syncer m) <= rangeEnd
    /\ rangeEnd <= Index (CurrentBlockIdentifier ns)
    /\ (endIndex <> -1 -> rangeEnd <= endIndex)
    /\ (endIndex = -1 -> rangeEnd = Index (CurrentBlockIdentifier ns))
    /\ syncer (snd (Sync_turn helper sentinelText endIndex m)) = syncer m
    /\ calls (snd (Sync_turn helper sentinelText endIndex m))
       = calls m ++ [CallNetworkStatus].
Proof.
  rewrite Sync_turn_run.
  destruct (nextIndex (syncer m) =? -1); [discriminate|]. cbv zeta.
  destruct (fst (NetworkStatus helper (world m))) as [ns|err]; [|discriminate].
  destruct (nextIndex (syncer m)
            >? effectiveEnd endIndex (Index (CurrentBlockIdentifier ns))) eqn:Hgt.
  - simpl. destruct (_ && _); discriminate.
  - simpl. intros [= <-]. exists ns. z_bools.
    split; [reflexivity|]. split; [lia|].
    unfold effectiveEnd.
    destruct (endIndex =? -1) eqn:He, (endIndex >? Index (CurrentBlockIdentifier ns)) eqn:Ht;
      simpl; z_bools; repeat split; intros; try lia; try reflexivity.
Qed.

(** X7.  When a turn of the loop of [Sync] fails, the error wraps
    [ErrNextSyncableRangeFailed] and nothing else: the cause, the unset
    index or the failure of the node, is in the text of the error only and
    cannot be found by [errors.Is].  The syncer is as it was. *)
Theorem Sync_turn_failure endIndex m (e : error) :
  fst (Sync_turn helper sentinelText endIndex m) = Returns (Failed e) ->
  errors_Is e ErrNextSyncableRangeFailed = true
  /\ errors_Is e ErrGetNetworkStatusFailed = false
  /\ errors_Is e ErrGetCurrentHeadBlockFailed = false
  /\ syncer (snd (Sync_turn helper sentinelText endIndex m)) = syncer m
  /\ ((nextIndex (syncer m) = -1
       /\ calls (snd (Sync_turn helper sentinelText endIndex m)) = calls m
       /\ Error sentinelText e
          = (sentinelText ErrNextSyncableRangeFailed ++ ": "
             ++ sentinelText ErrGetCurrentHeadBlockFailed)%string)
      \/ (exists cause,
             fst (NetworkStatus helper (world m)) = inr cause
             /\ Error sentinelText e
                = (sentinelText ErrNextSyncableRangeFailed ++ ": "
                   ++ sentinelText ErrGetNetworkStatusFailed ++ ": "
                   ++ Error sentinelText cause)%string)).
Proof.
  rewrite Sync_turn_run.
  destruct (nextIndex (syncer m) =? -1) eqn:Hunset.
  - simpl. intros [= <-]. z_bools.
    repeat (split; [reflexivity|]). left. repeat split. exact Hunset.
  - cbv zeta.
    destruct (fst (NetworkStatus helper (world m))) as [ns|cause].
    + destruct (nextIndex (syncer m) >? _); simpl;
        [destruct (_ && _)|]; discriminate.
    + simpl. intros [= <-].
      repeat (split; [reflexivity|]). right. exists cause.
      split; reflexivity.
Qed.

(** X8.  An empty range.  When [Sync] is given a start index above a given end
    index and the node answers, the first turn of the loop finishes the
    sync: the network status was read twice, the handler was never called,
    and [nextIndex] is the start index. *)
Theorem Sync_begin_empty_range (startIndex endIndex : Z) m
    (ns1 ns2 : NetworkStatusResponse) (w1 w2 : W) :
  startIndex <> -1 -> endIndex <> -1 -> endIndex < startIndex ->
  NetworkStatus helper (world m) = (inl ns1, w1) ->
  NetworkStatus helper w1 = (inl ns2, w2) ->
  Sync_begin helper sentinelText startIndex endIndex m
  = (Returns Finished,
     mkMachine
       (set_nextIndex startIndex
          (set_genesisBlock (Some (GenesisBlockIdentifier ns1)) (syncer m)))
       w2 (calls m ++ [CallNetworkStatus; CallNetworkStatus])).
Proof.
  intros Hs He Hlt H1 H2.
  unfold Sync_begin, setStart, bind, invoke, modify, ret. simpl.
  rewrite H1. simpl.
  apply Z.eqb_neq in Hs. rewrite Hs. simpl.
  rewrite Sync_turn_run. simpl.
  rewrite Hs, H2. simpl.
  assert (Hhalt : (startIndex >? effectiveEnd endIndex (Index (CurrentBlockIdentifier ns2)))
                  = true).
  { apply Z.gtb_lt. unfold effectiveEnd.
    destruct ((endIndex =? -1) || (endIndex >? Index (CurrentBlockIdentifier ns2))) eqn:Hc;
      [|lia].
    apply orb_true_iff in Hc as [Hc|Hc]; z_bools; lia. }
  rewrite Hhalt.
  assert (Hgt : (startIndex >? endIndex) = true) by (apply Z.gtb_lt; lia).
  apply Z.eqb_neq in He. rewrite Hgt, He. simpl.
  rewrite <- app_assoc. reflexivity.
Qed.

End DriverMoreFacts.

(** ** The controller through a range *)

Section ControllerRunFacts.

Variable convOutOfRange : float -> Z.

Lemma in_int64_bounds (z : Z) :
  in_int64 z = true <-> int64_min <= z <= int64_max.
Proof. unfold in_int64. rewrite andb_true_iff, !Z.leb_le. tauto. Qed.

Lemma int64_of_float_range (f : float) :
  in_int64 (int64_of_float convOutOfRange f) = true.
Proof.
  unfold int64_of_float.
  destruct (truncate f) as [z|]; [|apply wrap64_range].
  destruct (in_int64 z) eqn:Hz; [exact Hz|apply wrap64_range].
Qed.

Lemma newGoalConcurrency_range (max : float) (s : Syncer) :
  in_int64 (newGoalConcurrency convOutOfRange max s) = true
  /\ MinConcurrency <= newGoalConcurrency convOutOfRange max s.
Proof.
  unfold newGoalConcurrency.
  pose proof (int64_of_float_range (float64_of_int (cacheSize s) / max)) as Hr.
  destruct (Z.ltb_spec
              (int64_of_float convOutOfRange (float64_of_int (cacheSize s) / max))
              MinConcurrency) as [Hlt|Hge].
  - split; [reflexivity|lia].
  - split; [exact Hr|exact Hge].
Qed.

Lemma slowRiseGuard_true (s : Syncer) :
  slowRiseGuard s = true ->
  concurrency s < maxConcurrency s
  /\ defaultAdjustmentWindow < lastAdjustment s.
Proof.
  unfold slowRiseGuard. rewrite !andb_true_iff.
  intros [[_ Hc] Hl]. apply Z.ltb_lt in Hc. apply Z.gtb_lt in Hl.
  split; assumption.
Qed.

Lemma trimWindow_frame (s : Syncer) :
  maxConcurrency (trimWindow s) = maxConcurrency s
  /\ Z.of_nat (List.length (recentBlockSizes (trimWindow s)))
     <= Z.max defaultTrailingWindow
          (Z.of_nat (List.length (recentBlockSizes s)) - 1).
Proof.
  unfold trimWindow.
  destruct (Z.of_nat (List.length (recentBlockSizes s)) >? defaultTrailingWindow)
    eqn:Hgt.
  - apply Z.gtb_lt in Hgt. split; [reflexivity|].
    cbn [recentBlockSizes set_recentBlockSizes]. unfold defaultTrailingWindow in *.
    destruct (recentBlockSizes s) as [|a l]; cbn [tl List.length] in *; [lia|].
    rewrite Nat2Z.inj_succ in *. lia.
  - rewrite Z.gtb_ltb in Hgt. apply Z.ltb_ge in Hgt. split; [reflexivity|lia].
Qed.

Lemma fastFall_frame (max : float) (s : Syncer) :
  maxConcurrency (fastFall convOutOfRange max s) = maxConcurrency s
  /\ recentBlockSizes (fastFall convOutOfRange max s) = recentBlockSizes s.
Proof. unfold fastFall. destruct (negb _); split; reflexivity. Qed.

(** The fields of the controller after [adjustWorkers], from those of the
    state between its two branches. *)
Lemma adjustWorkers_fields (s : Syncer) :
  let s1 := if slowRiseGuard s then slowRise s else s in
  let s' := snd (adjustWorkers convOutOfRange s) in
  fst (adjustWorkers convOutOfRange s) = slowRiseGuard s
  /\ concurrency s' = concurrency s1
  /\ maxConcurrency s' = maxConcurrency s
  /\ goalConcurrency s'
     = (if fastFallGuard s then newGoalConcurrency convOutOfRange (paddedMax s) s1
        else goalConcurrency s1)
  /\ lastAdjustment s'
     = (if fastFallGuard s
        then if goalConcurrency s1
                =? newGoalConcurrency convOutOfRange (paddedMax s) s1
             then lastAdjustment s1 else 0
        else lastAdjustment s1)
  /\ Z.of_nat (List.length (recentBlockSizes s'))
     <= Z.max defaultTrailingWindow
          (Z.of_nat (List.length (recentBlockSizes s)) - 1).
Proof.
  intros s1 s'. subst s'. unfold adjustWorkers. cbn [fst snd]. fold s1.
  set (s2 := if fastFallGuard s then fastFall convOutOfRange (paddedMax s) s1 else s1).
  destruct (trimWindow_controls s2) as (Hg & Hc & Hl).
  destruct (trimWindow_frame s2) as (Hm & Hr).
  rewrite Hg, Hc, Hl, Hm.
  assert (Hs1 : maxConcurrency s1 = maxConcurrency s
                /\ recentBlockSizes s1 = recentBlockSizes s).
  { subst s1. destruct (slowRiseGuard s); split; reflexivity. }
  destruct Hs1 as [Hm1 Hr1].
  split; [reflexivity|].
  subst s2. destruct (fastFallGuard s).
  - destruct (fastFall_frame (paddedMax s) s1) as [Hmf Hrf].
    rewrite fastFall_concurrency, fastFall_goal, fastFall_lastAdjustment, Hmf.
    rewrite Hrf, Hr1 in Hr. repeat split; assumption || reflexivity.
  - rewrite Hr1 in Hr. repeat split; assumption || reflexivity.
Qed.

Lemma adjustWorkers_governed (s : Syncer) :
  in_int64 (maxConcurrency s) = true -> governed s ->
  governed (snd (adjustWorkers convOutOfRange s)).
Proof.
  intros HM (Hc & Hg & Hle).
  destruct (adjustWorkers_fields s) as (_ & Hconc & Hmax & Hgoal & _).
  cbv zeta in *. unfold governed. rewrite Hconc, Hmax, Hgoal.
  apply in_int64_bounds in HM, Hc.
  assert (H1 : in_int64 (concurrency (if slowRiseGuard s then slowRise s else s)) = true
               /\ concurrency (if slowRiseGuard s then slowRise s else s)
                  <= maxConcurrency s
               /\ in_int64 (goalConcurrency (if slowRiseGuard s then slowRise s else s))
                  = true).
  { destruct (slowRiseGuard s) eqn:Hslow.
    - apply slowRiseGuard_true in Hslow as [Hlt _]. simpl.
      rewrite (wrap64_in_range (concurrency s + 1))
        by (apply in_int64_bounds; lia).
      repeat split; [apply in_int64_bounds; lia|lia|apply wrap64_range].
    - repeat split; [apply in_int64_bounds; lia|lia|exact Hg]. }
  destruct H1 as (H1 & H2 & H3).
  split; [exact H1|]. split; [|exact H2].
  destruct (fastFallGuard s); [apply newGoalConcurrency_range|exact H3].
Qed.

Lemma fetcher_turn_governed (s : Syncer) :
  governed s ->
  governed (snd (fetcher_turn s))
  /\ maxConcurrency (snd (fetcher_turn s)) = maxConcurrency s.
Proof.
  intros (Hc & Hg & Hle). unfold fetcher_turn.
  destruct (concurrency s >? goalConcurrency s) eqn:Hgt; simpl;
    [|split; [repeat split; assumption|reflexivity]].
  apply Z.gtb_lt in Hgt. apply in_int64_bounds in Hc, Hg.
  rewrite (wrap64_in_range (concurrency s - 1)) by (apply in_int64_bounds; lia).
  split; [|reflexivity]. unfold governed.
  cbn [concurrency goalConcurrency maxConcurrency set_concurrency].
  repeat split; [apply in_int64_bounds; lia|apply in_int64_bounds; lia|lia].
Qed.

Lemma controllerStep_governed (st : controllerStep) (s : Syncer) :
  in_int64 (maxConcurrency s) = true -> governed s ->
  governed (snd (controllerStep_run convOutOfRange st s))
  /\ maxConcurrency (snd (controllerStep_run convOutOfRange st s))
     = maxConcurrency s.
Proof.
  intros HM Hgov. destruct st as [size|]; simpl.
  - unfold syncRange_tick.
    set (s0 := set_lastAdjustment _ _).
    split; [apply adjustWorkers_governed; [exact HM|exact Hgov]|].
    destruct (adjustWorkers_fields s0) as (_ & _ & Hmax & _). exact Hmax.
  - apply fetcher_turn_governed, Hgov.
Qed.

Lemma controllerRun_governed (steps : list controllerStep) :
  forall s, in_int64 (maxConcurrency s) = true -> governed s ->
            governed (snd (controllerRun convOutOfRange steps s))
            /\ maxConcurrency (snd (controllerRun convOutOfRange steps s))
               = maxConcurrency s.
Proof.
  induction steps as [|st rest IH]; intros s HM Hgov; simpl;
    [split; [exact Hgov|reflexivity]|].
  destruct (controllerStep_governed st s HM Hgov) as [Hgov1 Hmax1].
  destruct (controllerStep_run convOutOfRange st s) as [flag s1].
  cbn [snd] in *.
  assert (HM1 : in_int64 (maxConcurrency s1) = true) by (rewrite Hmax1; exact HM).
  destruct (IH s1 HM1 Hgov1) as [Hgov2 Hmax2].
  destruct (controllerRun convOutOfRange rest s1) as [n s2]. cbn [snd] in *.
  split; [exact Hgov2|congruence].
Qed.

Lemma syncRange_reset_governed (endIndex : Z) (s : Syncer) :
  in_int64 (maxConcurrency s) = true ->
  governed (syncRange_reset endIndex s)
  /\ maxConcurrency (syncRange_reset endIndex s) = maxConcurrency s.
Proof.
  intros HM. unfold syncRange_reset, governed. cbv zeta. simpl.
  set (blocksToSync := wrap64 (wrap64 (endIndex - nextIndex s) + 1)).
  pose proof (wrap64_range (wrap64 (endIndex - nextIndex s) + 1)) as Hb.
  fold blocksToSync in Hb.
  apply in_int64_bounds in HM, Hb.
  unfold DefaultConcurrency, int64_min, int64_max in *.
  destruct (Z.ltb_spec (maxConcurrency s) 4);
    match goal with
    | |- context [blocksToSync <? ?x] => destruct (Z.ltb_spec blocksToSync x)
    end;
    (split; [|reflexivity]);
    repeat split; try (apply in_int64_bounds; unfold int64_min, int64_max); lia.
Qed.

(** X9.  Through a whole range, from the reset at the head of [syncRange] and
    over any interleaving of the processor's ticks and the fetchers' turns,
    the number of live fetchers never exceeds [maxConcurrency]. *)
Theorem concurrency_never_exceeds_max (endIndex : Z) (s : Syncer)
    (steps : list controllerStep) :
  in_int64 (maxConcurrency s) = true ->
  concurrency (snd (controllerRun convOutOfRange steps (syncRange_reset endIndex s)))
  <= maxConcurrency s.
Proof.
  intros HM.
  destruct (syncRange_reset_governed endIndex s HM) as [Hgov Hmax].
  assert (HM0 : in_int64 (maxConcurrency (syncRange_reset endIndex s)) = true)
    by (rewrite Hmax; exact HM).
  destruct (controllerRun_governed steps _ HM0 Hgov) as [(_ & _ & Hle) Hmax2].
  rewrite Hmax2, Hmax in Hle. exact Hle.
Qed.

Lemma ticks_nonneg (steps : list controllerStep) : 0 <= ticks steps.
Proof. unfold ticks. lia. Qed.

Lemma ticks_cons (st : controllerStep) (rest : list controllerStep) :
  ticks (st :: rest)
  = (match st with Tick _ => 1 | FetcherTurn => 0 end) + ticks rest.
Proof.
  unfold ticks. destruct st; cbn [filter List.length]; [|lia].
  rewrite Nat2Z.inj_succ. lia.
Qed.

(** X10.  Slow rise.  For as long as [lastAdjustment] plus the ticks to come stays
    within [defaultAdjustmentWindow], no step asks for a new fetcher,
    whatever the sizes of the blocks and whatever the fetchers do in
    between: after the reset of a range or after any adjustment (when
    [lastAdjustment] is 0), the next ten results cannot raise the
    concurrency. *)
Theorem no_rise_within_adjustment_window (steps : list controllerStep) :
  forall s,
    0 <= lastAdjustment s ->
    lastAdjustment s + ticks steps <= defaultAdjustmentWindow ->
    fst (controllerRun convOutOfRange steps s) = O.
Proof.
  induction steps as [|st rest IH]; intros s Hlo Hhi; [reflexivity|].
  rewrite ticks_cons in Hhi. pose proof (ticks_nonneg rest) as Hrest.
  cbn [controllerRun].
  assert (Hstep : fst (controllerStep_run convOutOfRange st s) = false
                  /\ 0 <= lastAdjustment (snd (controllerStep_run convOutOfRange st s))
                  /\ lastAdjustment (snd (controllerStep_run convOutOfRange st s))
                     <= lastAdjustment s
                        + match st with Tick _ => 1 | FetcherTurn => 0 end).
  { destruct st as [size|]; cbn [controllerStep_run fst snd].
    - unfold syncRange_tick. set (s0 := set_lastAdjustment _ _).
      assert (Hl0 : lastAdjustment s0 = lastAdjustment s + 1).
      { subst s0. cbn [lastAdjustment set_lastAdjustment].
        apply wrap64_in_range, in_int64_bounds.
        unfold defaultAdjustmentWindow, int64_min, int64_max in *. lia. }
      assert (Hslow : slowRiseGuard s0 = false).
      { unfold slowRiseGuard. rewrite Hl0.
        assert (Hw : (lastAdjustment s + 1 >? defaultAdjustmentWindow) = false).
        { rewrite Z.gtb_ltb. apply Z.ltb_ge. lia. }
        rewrite Hw. apply andb_false_r. }
      destruct (adjustWorkers_fields s0) as (Hflag & _ & _ & _ & Hlast & _).
      cbv zeta in Hlast. rewrite Hslow in Hlast, Hflag.
      split; [exact Hflag|]. rewrite Hlast, Hl0.
      destruct (fastFallGuard s0); [destruct (_ =? _)|]; lia.
    - unfold fetcher_turn. destruct (_ >? _); cbn [snd lastAdjustment set_concurrency];
        repeat split; lia. }
  destruct Hstep as (Hflag & Hlo1 & Hhi1).
  destruct (controllerStep_run convOutOfRange st s) as [flag s1].
  cbn [fst snd] in *. subst flag.
  specialize (IH s1 Hlo1 ltac:(lia)).
  destruct (controllerRun convOutOfRange rest s1) as [n s2].
  cbn [fst] in *. exact IH.
Qed.

(** X11.  The trailing window of block sizes: once it holds at most
    [defaultTrailingWindow] sizes, it does so after every step of the
    controller. *)
Theorem recentBlockSizes_bounded (steps : list controllerStep) :
  forall s,
    Z.of_nat (List.length (recentBlockSizes s)) <= defaultTrailingWindow ->
    Z.of_nat (List.length
                (recentBlockSizes (snd (controllerRun convOutOfRange steps s))))
    <= defaultTrailingWindow.
Proof.
  induction steps as [|st rest IH]; intros s Hb; [exact Hb|].
  cbn [controllerRun].
  assert (Hstep : Z.of_nat (List.length
                              (recentBlockSizes
                                 (snd (controllerStep_run convOutOfRange st s))))
                  <= defaultTrailingWindow).
  { destruct st as [size|]; cbn [controllerStep_run snd].
    - unfold syncRange_tick. set (s0 := set_lastAdjustment _ _).
      destruct (adjustWorkers_fields s0) as (_ & _ & _ & _ & _ & Hr).
      cbv zeta in Hr.
      assert (Hl : Z.of_nat (List.length (recentBlockSizes s0))
                   = Z.of_nat (List.length (recentBlockSizes s)) + 1).
      { subst s0. cbn [recentBlockSizes set_lastAdjustment set_recentBlockSizes].
        rewrite length_app. cbn [List.length]. lia. }
      lia.
    - unfold fetcher_turn. destruct (_ >? _); exact Hb. }
  destruct (controllerStep_run convOutOfRange st s) as [flag s1].
  cbn [snd] in *. specialize (IH s1 Hstep).
  destruct (controllerRun convOutOfRange rest s1) as [n s2]. exact IH.
Qed.

(** X12.  Fast fall takes effect through the fetchers.  With the goal at or below
    the live concurrency, each fetcher that ends a turn exits until the
    live concurrency has come down to the goal, and none exits after that:
    after [n] turns the concurrency is the larger of the goal and the
    concurrency less [n]; the goal does not move. *)
Theorem fetchers_fall_to_goal (n : nat) :
  forall s,
    in_int64 (goalConcurrency s) = true ->
    in_int64 (concurrency s) = true ->
    goalConcurrency s <= concurrency s ->
    let s' := snd (controllerRun convOutOfRange (repeat FetcherTurn n) s) in
    concurrency s' = Z.max (goalConcurrency s) (concurrency s - Z.of_nat n)
    /\ goalConcurrency s' = goalConcurrency s.
Proof.
  induction n as [|n IH]; intros s Hg Hc Hle; cbv zeta.
  - cbn [repeat controllerRun snd]. split; [lia|reflexivity].
  - cbn [repeat controllerRun controllerStep_run].
    set (s1 := snd (fetcher_turn s)).
    assert (H1 : goalConcurrency s1 = goalConcurrency s
                 /\ concurrency s1
                    = Z.max (goalConcurrency s) (concurrency s - 1)).
    { subst s1. unfold fetcher_turn. apply in_int64_bounds in Hg, Hc.
      destruct (concurrency s >? goalConcurrency s) eqn:Hgt;
        cbn [snd goalConcurrency concurrency set_concurrency].
      - apply Z.gtb_lt in Hgt.
        rewrite wrap64_in_range by (apply in_int64_bounds; lia).
        split; [reflexivity|lia].
      - rewrite Z.gtb_ltb in Hgt. apply Z.ltb_ge in Hgt. split; [reflexivity|lia]. }
    destruct H1 as [Hg1 Hc1].
    assert (Hin : in_int64 (concurrency s1) = true).
    { apply in_int64_bounds. apply in_int64_bounds in Hg, Hc. lia. }
    specialize (IH s1 ltac:(rewrite Hg1; exact Hg) Hin ltac:(lia)).
    cbv zeta in IH.
    destruct (controllerRun convOutOfRange (repeat FetcherTurn n) s1) as [k s2].
    cbn [snd] in *. destruct IH as [IHc IHg].
    rewrite IHc, IHg, Hg1, Hc1, Nat2Z.inj_succ. split; [lia|reflexivity].
Qed.

(** X13.  The start of a range that is not empty: between [nextIndex] and
    [endIndex], with at least one fetcher allowed, [syncRange] starts at
    least one fetcher, at most [DefaultConcurrency], at most
    [maxConcurrency] and at most one per block of the range; the goal is the
    same number, the window of sizes and the tick count start empty, and the
    state of the reorg machine is not touched. *)
Theorem syncRange_reset_bounds (endIndex : Z) (s : Syncer) :
  nextIndex s <= endIndex ->
  endIndex - nextIndex s < int64_max ->
  1 <= maxConcurrency s ->
  let s' := syncRange_reset endIndex s in
  1 <= concurrency s'
  /\ concurrency s' <= DefaultConcurrency
  /\ concurrency s' <= maxConcurrency s
  /\ concurrency s' <= endIndex - nextIndex s + 1
  /\ goalConcurrency s' = concurrency s'
  /\ recentBlockSizes s' = []
  /\ lastAdjustment s' = 0
  /\ doneLoading s' = false
  /\ nextIndex s' = nextIndex s
  /\ pastBlocks s' = pastBlocks s
  /\ genesisBlock s' = genesisBlock s.
Proof.
  intros Hle Hhi Hmax. unfold syncRange_reset. cbv zeta. simpl.
  assert (Hblocks : wrap64 (wrap64 (endIndex - nextIndex s) + 1)
                    = endIndex - nextIndex s + 1).
  { unfold int64_max in Hhi.
    rewrite (wrap64_in_range (endIndex - nextIndex s))
      by (apply in_int64_bounds; unfold int64_min, int64_max; lia).
    apply wrap64_in_range, in_int64_bounds. unfold int64_min, int64_max. lia. }
  rewrite Hblocks. unfold DefaultConcurrency.
  destruct (Z.ltb_spec (maxConcurrency s) 4);
    match goal with
    | |- context [?b <? ?x] => destruct (Z.ltb_spec b x)
    end; repeat split; lia.
Qed.

End ControllerRunFacts.

(** ** The further theorems at work *)

Lemma processBlocks_delivers_in_order_witness :
  exists p',
    processBlocks Mock.accepting Node.chain Mock.hash Mock.texts
      Node.ErrFetchBlockReorgFailed Node.ErrBlockProcessFailed 4 10
      (Node.pipeline (Mock.start (Mock.syncerAt (Some (Mock.ident 0)) 0 []))
         (Node.cached 0 3))
    = Some (Returns None, p')
    /\ calls (machine p')
       = [CallBlockAdded (Some (Mock.blockAt 0));
          CallBlockAdded (Some (Mock.blockAt 1));
          CallBlockAdded (Some (Mock.blockAt 2))]
    /\ nextIndex (syncer (machine p')) = 3
    /\ fetched p' = []
    /\ slice_last (pastBlocks (syncer (machine p'))) = Some (Mock.ident 2).
Proof.
  destruct (processBlocks_delivers_in_order unit Mock.accepting Node.chain
              Mock.hash Mock.texts Node.ErrFetchBlockReorgFailed
              Node.ErrBlockProcessFailed
              [Mock.blockAt 0; Mock.blockAt 1; Mock.blockAt 2]
              (Node.pipeline (Mock.start (Mock.syncerAt (Some (Mock.ident 0)) 0 []))
                 (Node.cached 0 3))
              4%nat 10)
    as (p' & Hrun & Hcalls & Hnext & Hasked & _ & Hlast).
  - intros b w. reflexivity.
  - simpl. repeat split; try reflexivity; eexists; reflexivity.
  - discriminate.
  - discriminate.
  - discriminate.
  - right. split; [reflexivity|reflexivity].
  - simpl. lia.
  - exists p'. split; [exact Hrun|]. split; [exact Hcalls|].
    split; [exact Hnext|]. split; [exact Hasked|].
    apply (Hlast (Mock.blockAt 2)). reflexivity.
Defined.

Lemma processBlocks_result_witness :
  exists r p',
    processBlocks Mock.accepting Node.chain Mock.hash Mock.texts
      Node.ErrFetchBlockReorgFailed Node.ErrBlockProcessFailed 4 10
      (Node.pipeline (Mock.start (Mock.syncerAt (Some (Mock.ident 0)) 0 []))
         (Node.cached 0 3))
    = Some (r, p')
    /\ match r with
       | Returns None =>
           10 < nextIndex (syncer (machine p'))
           \/ ZMap.find (nextIndex (syncer (machine p'))) (cache p') = None
       | Returns (Some e) =>
           errors_Is e Node.ErrBlockProcessFailed = true
           \/ errors_Is e Node.ErrFetchBlockReorgFailed = true
       | Panic _ => True
       end.
Proof.
  destruct (processBlocks Mock.accepting Node.chain Mock.hash Mock.texts
              Node.ErrFetchBlockReorgFailed Node.ErrBlockProcessFailed 4 10
              (Node.pipeline (Mock.start (Mock.syncerAt (Some (Mock.ident 0)) 0 []))
                 (Node.cached 0 3)))
    as [[r p']|] eqn:Hrun; [|vm_compute in Hrun; discriminate Hrun].
  exists r, p'. split; [reflexivity|].
  exact (processBlocks_result unit Mock.accepting Node.chain Mock.hash Mock.texts
           Node.ErrFetchBlockReorgFailed Node.ErrBlockProcessFailed 4 10 _ r p'
           Hrun).
Defined.

(** A block that does not have the expected index stops the processor: the
    error wraps the processor's sentinel, and the text names the cause. *)
Example processBlocks_out_of_order :
  option_map fst
    (processBlocks Mock.accepting Node.chain Mock.hash Mock.texts
       Node.ErrFetchBlockReorgFailed Node.ErrBlockProcessFailed 4 10
       (Node.pipeline
          (Mock.start (Mock.syncerAt (Some Mock.id0) 3 [Mock.id0; Mock.id1a; Mock.id2]))
          (ZMap.add 3 (Mock.fresh Mock.block5) (ZMap.empty _))))
  = Some (Returns
            (Some (Errorf Node.ErrBlockProcessFailed
                     ": out of order: got block 5 instead of 3"))).
Proof. vm_compute. reflexivity. Qed.

(** The fork of the tests, in small: blocks 0 to 5 are in, the node has
    moved to another branch from index 4 on, and the cache holds the
    result for index 6 on that branch. *)
Lemma processBlocks_only_consumes_witness :
  exists r p',
    processBlocks Mock.accepting (Node.forked 4) Mock.hash Mock.texts
      Node.ErrFetchBlockReorgFailed Node.ErrBlockProcessFailed 20 10
      (Node.pipeline
         (Mock.start (Mock.syncerAt (Some (Mock.ident 0)) 6 (Mock.chain 6)))
         (ZMap.add 6 (Mock.fresh (Node.forkAt 4 6)) (ZMap.empty _)))
    = Some (r, p')
    /\ within (cache p') (ZMap.add 6 (Mock.fresh (Node.forkAt 4 6)) (ZMap.empty _))
    /\ (exists asked, fetched p' = [] ++ asked)
    /\ (exists called, calls (machine p') = [] ++ called).
Proof.
  destruct (processBlocks Mock.accepting (Node.forked 4) Mock.hash Mock.texts
              Node.ErrFetchBlockReorgFailed Node.ErrBlockProcessFailed 20 10
              (Node.pipeline
                 (Mock.start (Mock.syncerAt (Some (Mock.ident 0)) 6 (Mock.chain 6)))
                 (ZMap.add 6 (Mock.fresh (Node.forkAt 4 6)) (ZMap.empty _))))
    as [[r p']|] eqn:Hrun; [|vm_compute in Hrun; discriminate Hrun].
  exists r, p'. split; [reflexivity|].
  exact (processBlocks_only_consumes unit Mock.accepting (Node.forked 4) Mock.hash
           Mock.texts Node.ErrFetchBlockReorgFailed Node.ErrBlockProcessFailed
           20 10 _ r p' Hrun).
Defined.

Example fork_is_followed :
  option_map
    (fun done =>
       (fst done, nextIndex (syncer (machine (snd done))),
        map BlockHash (pastBlocks (syncer (machine (snd done)))),
        fetched (snd done)))
    (processBlocks Mock.accepting (Node.forked 4) Mock.hash Mock.texts
       Node.ErrFetchBlockReorgFailed Node.ErrBlockProcessFailed 20 10
       (Node.pipeline
          (Mock.start (Mock.syncerAt (Some (Mock.ident 0)) 6 (Mock.chain 6)))
          (ZMap.add 6 (Mock.fresh (Node.forkAt 4 6)) (ZMap.empty _))))
  = Some (Returns None, 7,
          ["block 0"; "block 1"; "block 2"; "block 3";
           "other 4"; "other 5"; "other 6"]%string,
          [5; 4; 5; 6]).
Proof. vm_compute. reflexivity. Qed.

(** What the missing index check leads to.  On an empty window with index 3
    expected, the result cached for index 3 carries block 1: it is added,
    index 2 is expected next, and the processor, taking this for an unwind,
    asks the node for indices 2 and 3. *)
Example lower_index_on_empty_window_starts_reorg :
  option_map
    (fun done =>
       (fst done, nextIndex (syncer (machine (snd done))),
        map BlockHash (pastBlocks (syncer (machine (snd done)))),
        fetched (snd done)))
    (processBlocks Mock.accepting Node.chain Mock.hash Mock.texts
       Node.ErrFetchBlockReorgFailed Node.ErrBlockProcessFailed 20 3
       (Node.pipeline
          (Mock.start (Mock.syncerAt (Some (Mock.ident 0)) 3 []))
          (ZMap.add 3 (Mock.fresh (Mock.blockAt 1)) (ZMap.empty _))))
  = Some (Returns None, 4, ["block 1"; "block 2"; "block 3"]%string, [2; 3]).
Proof. vm_compute. reflexivity. Qed.

Lemma processBlocks_refetches_after_unwind_witness :
  exists r p' later,
    processBlocks (traceHandler Mock.accepting) (traceBlocks (Node.forked 4))
      Mock.hash Mock.texts
      Node.ErrFetchBlockReorgFailed Node.ErrBlockProcessFailed 20 10
      (Node.traced
         (Mock.start (Mock.syncerAt (Some (Mock.ident 0)) 6 (Mock.chain 6)))
         (ZMap.add 6 (Mock.fresh (Node.forkAt 4 6)) (ZMap.empty _)))
    = Some (r, p')
    /\ trace p'
       = [] ++ Handled (CallBlockRemoved (Some (Mock.ident 5))) :: Asked 5 :: later.
Proof.
  destruct (processBlocks (traceHandler Mock.accepting)
              (traceBlocks (Node.forked 4)) Mock.hash Mock.texts
              Node.ErrFetchBlockReorgFailed Node.ErrBlockProcessFailed 20 10
              (Node.traced
                 (Mock.start (Mock.syncerAt (Some (Mock.ident 0)) 6 (Mock.chain 6)))
                 (ZMap.add 6 (Mock.fresh (Node.forkAt 4 6)) (ZMap.empty _))))
    as [[r p']|] eqn:Hrun; [|vm_compute in Hrun; discriminate Hrun].
  pose proof (processBlocks_refetches_after_unwind unit Mock.accepting
                (Node.forked 4) Mock.hash Mock.texts Node.ErrFetchBlockReorgFailed
                Node.ErrBlockProcessFailed
                (mkBlockResult 6 (Some (Node.forkAt 4 6)) false)
                (Node.traced
                   (Mock.start (Mock.syncerAt (Some (Mock.ident 0)) 6 (Mock.chain 6)))
                   (ZMap.add 6 (Mock.fresh (Node.forkAt 4 6)) (ZMap.empty _)))
                20%nat 10 (Mock.ident 5) r p') as H.
  cbv zeta in H.
  assert (Hfind : ZMap.find 6 (ZMap.add 6 (Mock.fresh (Node.forkAt 4 6)) (ZMap.empty _))
                  = Some (Some (mkBlockResult 6 (Some (Node.forkAt 4 6)) false)))
    by (vm_compute; reflexivity).
  assert (Hend : 6 <= 10) by lia.
  assert (Ht : slice_last (Mock.chain 6) = Some (Mock.ident 5))
    by (vm_compute; reflexivity).
  assert (Hg : String.eqb (Mock.hash (Some (Mock.ident 0)))
                 (Mock.hash (Some (Mock.ident 5))) = false)
    by (vm_compute; reflexivity).
  assert (Hu : unwindTriggered Mock.hash
                 (Mock.syncerAt (Some (Mock.ident 0)) 6 (Mock.chain 6))
                 (mkBlockResult 6 (Some (Node.forkAt 4 6)) false) = true)
    by (vm_compute; reflexivity).
  assert (Hbelow : 5 < 6) by lia.
  assert (Hmiss : ZMap.find 5 (ZMap.add 6 (Mock.fresh (Node.forkAt 4 6)) (ZMap.empty _))
                  = None)
    by (vm_compute; reflexivity).
  destruct (H Hfind Hend Ht Hg Hu eq_refl Hbelow Hmiss Hrun) as [later Hlater].
  exists r, p', later. split; [reflexivity|exact Hlater].
Defined.

(** The whole of it on the fork at index 4: the processor unwinds blocks 5
    and 4, asking the node after each removal, then follows the other
    branch, asking the node before each addition. *)
Example fork_call_by_call :
  option_map (fun done => trace (snd done))
    (processBlocks (traceHandler Mock.accepting) (traceBlocks (Node.forked 4))
       Mock.hash Mock.texts
       Node.ErrFetchBlockReorgFailed Node.ErrBlockProcessFailed 20 10
       (Node.traced
          (Mock.start (Mock.syncerAt (Some (Mock.ident 0)) 6 (Mock.chain 6)))
          (ZMap.add 6 (Mock.fresh (Node.forkAt 4 6)) (ZMap.empty _))))
  = Some [Handled (CallBlockRemoved (Some (Mock.ident 5))); Asked 5;
          Handled (CallBlockRemoved (Some (Mock.ident 4))); Asked 4;
          Handled (CallBlockAdded (Some (Node.forkAt 4 4))); Asked 5;
          Handled (CallBlockAdded (Some (Node.forkAt 4 5))); Asked 6;
          Handled (CallBlockAdded (Some (Node.forkAt 4 6)))].
Proof. vm_compute. reflexivity. Qed.

Lemma Sync_turn_range_witness :
  fst (Sync_turn (Mock.helperAt 200) Mock.texts 1200
         (Mock.start (Mock.syncerAt (Some (Mock.ident 0)) 0 [])))
  = Returns (SyncRange 200)
  /\ exists ns,
      fst (NetworkStatus (Mock.helperAt 200) tt) = inl ns
      /\ 0 <= 200
      /\ 200 <= Index (CurrentBlockIdentifier ns)
      /\ (1200 <> -1 -> 200 <= 1200).
Proof.
  split; [reflexivity|].
  destruct (Sync_turn_range unit (Mock.helperAt 200) Mock.texts 1200
              (Mock.start (Mock.syncerAt (Some (Mock.ident 0)) 0 [])) 200
              eq_refl)
    as (ns & Hns & Hlo & Htip & Hend & _).
  exists ns. repeat split; assumption.
Defined.

Lemma Sync_turn_failure_witness :
  exists e,
    fst (Sync_turn Node.helperDown Mock.texts 1200
           (Mock.start (Mock.syncerAt (Some (Mock.ident 0)) 0 [])))
    = Returns (Failed e)
    /\ Error Mock.texts e
       = "unable to get next syncable range: unable to get network status: connection refused"
    /\ errors_Is e ErrNextSyncableRangeFailed = true
    /\ errors_Is e ErrGetNetworkStatusFailed = false.
Proof.
  eexists. split; [reflexivity|]. split; [reflexivity|].
  destruct (Sync_turn_failure unit Node.helperDown Mock.texts 1200
              (Mock.start (Mock.syncerAt (Some (Mock.ident 0)) 0 [])) _ eq_refl)
    as (His & Hnot & _).
  split; assumption.
Defined.

Lemma Sync_begin_empty_range_witness :
  Sync_begin (Mock.helperAt 1300) Mock.texts 100 50 (Mock.start (New []))
  = (Returns Finished,
     mkMachine (Mock.syncerAt (Some (Mock.ident 0)) 100 []) tt
       [CallNetworkStatus; CallNetworkStatus]).
Proof.
  apply (Sync_begin_empty_range unit (Mock.helperAt 1300) Mock.texts 100 50
           (Mock.start (New [])) (Mock.status 1300) (Mock.status 1300) tt tt);
    try discriminate; reflexivity.
Defined.

Lemma concurrency_never_exceeds_max_witness :
  concurrency
    (snd (controllerRun Mock.indefinite
            [Tick 1000; Tick 1000; FetcherTurn; Tick 1000; Tick 1000; Tick 1000;
             Tick 1000; Tick 1000; Tick 1000; Tick 1000; Tick 1000; Tick 1000;
             Tick 1000; Tick 1000]
            (syncRange_reset 1200 (New []))))
  <= maxConcurrency (New []).
Proof.
  apply (concurrency_never_exceeds_max Mock.indefinite 1200 (New [])).
  reflexivity.
Defined.

(** The eleventh result of a range of small blocks brings a fifth fetcher. *)
Example eleventh_tick_raises :
  let run := controllerRun Mock.indefinite (repeat (Tick 1000) 10)
               (syncRange_reset 1200 (New [])) in
  fst run = O
  /\ fst (controllerRun Mock.indefinite [Tick 1000] (snd run)) = 1%nat
  /\ concurrency (snd (controllerRun Mock.indefinite [Tick 1000] (snd run))) = 5.
Proof. vm_compute. repeat split. Qed.

Lemma no_rise_within_adjustment_window_witness :
  fst (controllerRun Mock.indefinite
         [Tick 1000; Tick 1000; FetcherTurn; Tick 1000; Tick 1000; Tick 1000;
          Tick 1000; FetcherTurn; Tick 1000; Tick 1000; Tick 1000; Tick 1000]
         (syncRange_reset 1200 (New [])))
  = O.
Proof.
  apply (no_rise_within_adjustment_window Mock.indefinite
           [Tick 1000; Tick 1000; FetcherTurn; Tick 1000; Tick 1000; Tick 1000;
            Tick 1000; FetcherTurn; Tick 1000; Tick 1000; Tick 1000; Tick 1000]
           (syncRange_reset 1200 (New []))).
  - apply Z.leb_le. reflexivity.
  - apply Z.leb_le. reflexivity.
Defined.

Lemma recentBlockSizes_bounded_witness :
  Z.of_nat
    (List.length
       (recentBlockSizes
          (snd (controllerRun Mock.indefinite [Tick 1000; FetcherTurn; Tick 2000]
                  (syncRange_reset 1200 (New []))))))
  <= defaultTrailingWindow.
Proof.
  apply (recentBlockSizes_bounded Mock.indefinite [Tick 1000; FetcherTurn; Tick 2000]
           (syncRange_reset 1200 (New []))).
  apply Z.leb_le. reflexivity.
Defined.

Lemma fetchers_fall_to_goal_witness :
  concurrency
    (snd (controllerRun Mock.indefinite (repeat FetcherTurn 60)
            (snd (adjustWorkers Mock.indefinite Mock.pressed))))
  = 209
  /\ goalConcurrency
       (snd (controllerRun Mock.indefinite (repeat FetcherTurn 60)
               (snd (adjustWorkers Mock.indefinite Mock.pressed))))
     = 209.
Proof.
  destruct (fetchers_fall_to_goal Mock.indefinite 60
              (snd (adjustWorkers Mock.indefinite Mock.pressed))
              eq_refl eq_refl ltac:(apply Z.leb_le; reflexivity))
    as [Hc Hg].
  split; [rewrite Hc; reflexivity|rewrite Hg; reflexivity].
Defined.

Lemma syncRange_reset_bounds_witness :
  concurrency (syncRange_reset 1 (Mock.syncerAt (Some (Mock.ident 0)) 0 [])) = 2
  /\ 1 <= concurrency (syncRange_reset 1 (Mock.syncerAt (Some (Mock.ident 0)) 0 []))
  /\ concurrency (syncRange_reset 1 (Mock.syncerAt (Some (Mock.ident 0)) 0 []))
     <= 1 - 0 + 1.
Proof.
  split; [reflexivity|].
  destruct (syncRange_reset_bounds 1 (Mock.syncerAt (Some (Mock.ident 0)) 0 [])
              ltac:(apply Z.leb_le; reflexivity)
              ltac:(apply Z.ltb_lt; reflexivity)
              ltac:(apply Z.leb_le; reflexivity))
    as (Hlo & _ & _ & Hblocks & _).
  split; [exact Hlo|exact Hblocks].
Defined.
